(** * Budget management: the aggregation engine and the projection calculator

    A shallow embedding of the computational core of the repository:
    - [BudgetManager] of [script.py]: the ledger, period filtering, the
      summary, the spending advice and the recent-transaction listing;
    - [BudgetPlanner] of [script2.py]: compound growth and the required
      monthly investment.

    Conventions of the embedding.
    - Python [float] is binary64.  [BudgetManager64] and [BudgetPlanner64]
      compute with the primitive floats, which round as the machine does, and
      give a raised [ZeroDivisionError] or [OverflowError] as the result of
      the call: what is stated about the value of a sum, a difference, a
      product, a quotient or a power, or about a comparison with such a
      value, is stated there.
    - [BudgetManager] carries the amounts as exact rationals ([Qc], the
      canonical rationals, so that equality is Leibniz equality).  It serves
      the statements in which the arithmetic on amounts takes no part (the
      period filter, the listing, the ledger and its categories) and
      inequalities between totals that rounding to nearest preserves.
      [BudgetPlanner] does the same for the round-trip law of the required
      monthly investment, which is a law of exact arithmetic; there a raised
      [ZeroDivisionError] is the result [None].
    - [sum] adds from left to right, as CPython does up to version 3.11.
    - The C library's [pow] is a parameter of the binary64 projections; the
      special cases that CPython decides before calling it are modelled.
    - Python [str] is [string]; [<=] on [str] is the lexicographic order on
      the characters, [String.leb].
    - [datetime.datetime.now()] is an explicit argument (a calendar date):
      only the date part is ever read by the code.
    - The insertion-ordered Python [dict] built by [get_summary] is an
      association list with unique keys, in insertion order. *)

From Stdlib Require Import ZArith QArith Qcanon String Ascii List Lia.
From Stdlib Require Import Sorting.Sorted Sorting.Permutation.
From Stdlib Require Floats.
From stdpp Require Import base list strings gmap numbers.

Open Scope Z_scope.

(** ** The order of Python strings *)

Module StrOrder.

(** [a >= b] on two Python strings. *)
Definition str_ge (a b : string) : bool := String.leb b a.

Lemma ascii_compare_refl (a : ascii) : Ascii.compare a a = Eq.
Proof. unfold Ascii.compare. apply N.compare_refl. Qed.

Lemma ascii_compare_lt_trans (a b c : ascii) :
  Ascii.compare a b = Lt → Ascii.compare b c = Lt → Ascii.compare a c = Lt.
Proof.
  unfold Ascii.compare. rewrite !N.compare_lt_iff. apply N.lt_trans.
Qed.

Lemma ascii_compare_eq (a b : ascii) : Ascii.compare a b = Eq → a = b.
Proof. apply Ascii.compare_eq_iff. Qed.

Lemma compare_refl (s : string) : String.compare s s = Eq.
Proof.
  induction s as [|a s IH]; simpl; [done|].
  by rewrite ascii_compare_refl.
Qed.

Lemma compare_cons (a b : ascii) (s t : string) :
  String.compare (String a s) (String b t) =
  match Ascii.compare a b with
  | Eq => String.compare s t
  | c => c
  end.
Proof. simpl. by destruct (Ascii.compare a b). Qed.

(** The strict order is transitive, and so is its mix with equality. *)
Lemma compare_lt_trans (s t u : string) :
  String.compare s t = Lt → String.compare t u = Lt → String.compare s u = Lt.
Proof.
  revert t u. induction s as [|a s IH]; intros [|b t] [|c u]; simpl; try done.
  destruct (Ascii.compare a b) eqn:Hab; try done.
  - apply ascii_compare_eq in Hab as ->.
    destruct (Ascii.compare b c) eqn:Hbc; try done. apply IH.
  - destruct (Ascii.compare b c) eqn:Hbc; try done.
    + apply ascii_compare_eq in Hbc as <-. by rewrite Hab.
    + by rewrite (ascii_compare_lt_trans a b c).
Qed.

Lemma leb_refl (s : string) : String.leb s s = true.
Proof. unfold String.leb. by rewrite compare_refl. Qed.

Lemma leb_Gt (s t : string) :
  String.leb s t = true ↔ String.compare s t ≠ Gt.
Proof. unfold String.leb. destruct (String.compare s t); naive_solver. Qed.

Lemma leb_trans (s t u : string) :
  String.leb s t = true → String.leb t u = true → String.leb s u = true.
Proof.
  rewrite !leb_Gt. intros Hst Htu.
  destruct (String.compare s t) eqn:H1; [| |done].
  - apply String.compare_eq_iff in H1 as ->. done.
  - destruct (String.compare t u) eqn:H2; [| |done].
    + apply String.compare_eq_iff in H2 as <-. by rewrite H1.
    + by rewrite (compare_lt_trans s t u).
Qed.

Lemma str_ge_trans (a b c : string) :
  str_ge a b = true → str_ge b c = true → str_ge a c = true.
Proof. unfold str_ge. intros Hab Hbc. by apply (leb_trans c b a). Qed.

End StrOrder.

(** ** The calendar: what the code uses of [datetime] *)

Module Calendar.

(** The date part of a [datetime] value. *)
Record date := mkDate { year : Z; month : Z; day : Z }.

(** [datetime._is_leap]. *)
Definition is_leap (y : Z) : bool :=
  (y mod 4 =? 0) && (negb (y mod 100 =? 0) || (y mod 400 =? 0)).

(** [datetime._days_in_month]. *)
Definition days_in_month (y m : Z) : Z :=
  if (m =? 2) && is_leap y then 29
  else match m with
       | 1 => 31 | 2 => 28 | 3 => 31 | 4 => 30 | 5 => 31 | 6 => 30
       | 7 => 31 | 8 => 31 | 9 => 30 | 10 => 31 | 11 => 30 | 12 => 31
       | _ => -1
       end.

(** [datetime._days_before_year]: days before January 1 of year [y]. *)
Definition days_before_year (y : Z) : Z :=
  let y' := y - 1 in y' * 365 + y' / 4 - y' / 100 + y' / 400.

(** [datetime._days_before_month]. *)
Definition days_before_month (y m : Z) : Z :=
  match m with
  | 1 => 0 | 2 => 31 | 3 => 59 | 4 => 90 | 5 => 120 | 6 => 151
  | 7 => 181 | 8 => 212 | 9 => 243 | 10 => 273 | 11 => 304 | 12 => 334
  | _ => -1
  end + (if (2 <? m) && is_leap y then 1 else 0).

(** [date.toordinal]: 0001-01-01 is day 1. *)
Definition toordinal (d : date) : Z :=
  days_before_year (year d) + days_before_month (year d) (month d) + day d.

(** [date.weekday]: Monday is 0, Sunday is 6. *)
Definition weekday (d : date) : Z := (toordinal d + 6) mod 7.

(** The dates a [datetime] can hold: [MINYEAR = 1], [MAXYEAR = 9999]. *)
Definition valid_date (d : date) : Prop :=
  1 ≤ year d ≤ 9999 ∧ 1 ≤ month d ≤ 12 ∧ 1 ≤ day d ≤ days_in_month (year d) (month d).

(** The calendar day before [d]. *)
Definition prev_day (d : date) : date :=
  if 1 <? day d then mkDate (year d) (month d) (day d - 1)
  else if 1 <? month d
       then mkDate (year d) (month d - 1) (days_in_month (year d) (month d - 1))
       else mkDate (year d - 1) 12 31.

(** [d - datetime.timedelta(days=k)] for a small [k], as [k] steps back.
    [toordinal_sub_days] below states that this is the date whose ordinal is
    [toordinal d - k], which is how [datetime] defines the subtraction. *)
Fixpoint sub_days (d : date) (k : nat) : date :=
  match k with
  | O => d
  | S k' => sub_days (prev_day d) k'
  end.

(** [today.replace(day=1)] and [today.replace(month=1, day=1)]. *)
Definition replace_day (d : date) (dd : Z) : date := mkDate (year d) (month d) dd.
Definition replace_month_day (d : date) (m dd : Z) : date := mkDate (year d) m dd.

(** The chronological order on (year, month, day). *)
Definition date_compare (a b : date) : comparison :=
  match year a ?= year b with
  | Eq => match month a ?= month b with
          | Eq => day a ?= day b
          | c => c
          end
  | c => c
  end.

Definition date_le (a b : date) : Prop := date_compare a b ≠ Gt.

(** *** [strftime("%Y-%m-%d")] *)

(** The character of one decimal digit. *)
Definition digit (n : Z) : ascii := ascii_of_N (48 + Z.to_N n).

Definition pad2 (n : Z) (rest : string) : string :=
  String (digit (n / 10 mod 10)) (String (digit (n mod 10)) rest).

Definition pad4 (n : Z) (rest : string) : string :=
  String (digit (n / 1000 mod 10)) (String (digit (n / 100 mod 10)) (pad2 n rest)).

(** Zero-padded year, month and day, separated by dashes, as documented for
    [%Y-%m-%d].  (Some C libraries do not pad a year below 1000; a clock does
    not read such a year.) *)
Definition strftime (d : date) : string :=
  pad4 (year d) (String "-" (pad2 (month d) (String "-" (pad2 (day d) EmptyString)))).

(** Dates whose fields fit the widths of the format. *)
Definition printable (d : date) : Prop :=
  0 ≤ year d ≤ 9999 ∧ 0 ≤ month d ≤ 99 ∧ 0 ≤ day d ≤ 99.

Example strftime_sample : strftime (mkDate 2024 5 2) = "2024-05-02"%string.
Proof. reflexivity. Qed.

Example weekday_sample : weekday (mkDate 2024 5 2) = 3.
Proof. reflexivity. Qed.

Example sub_days_sample :
  sub_days (mkDate 2024 5 2) 3 = mkDate 2024 4 29 ∧ sub_days (mkDate 2024 3 1) 1 = mkDate 2024 2 29.
Proof. split; reflexivity. Qed.

(** *** Facts *)

Lemma days_in_month_bounds (y m : Z) : 1 ≤ m ≤ 12 → 28 ≤ days_in_month y m ≤ 31.
Proof.
  intros Hm. unfold days_in_month.
  assert (m = 1 ∨ m = 2 ∨ m = 3 ∨ m = 4 ∨ m = 5 ∨ m = 6 ∨ m = 7 ∨ m = 8 ∨
          m = 9 ∨ m = 10 ∨ m = 11 ∨ m = 12) as Hc by lia.
  destruct (is_leap y); destruct_or!; subst m; simpl; lia.
Qed.

Lemma valid_printable (d : date) : valid_date d → printable d.
Proof.
  intros (Hy & Hm & Hd). pose proof (days_in_month_bounds (year d) (month d) Hm).
  unfold printable. lia.
Qed.

(** One step back is strictly earlier, whatever the date. *)
Lemma prev_day_lt (d : date) : date_compare (prev_day d) d = Lt.
Proof.
  unfold prev_day, date_compare.
  destruct (1 <? day d) eqn:Hd; simpl.
  - rewrite !Z.compare_refl. apply Z.compare_lt_iff. lia.
  - destruct (1 <? month d) eqn:Hm; simpl.
    + rewrite Z.compare_refl.
      assert (month d - 1 < month d) as ->%Z.compare_lt_iff by lia. done.
    + assert (year d - 1 < year d) as ->%Z.compare_lt_iff by lia. done.
Qed.

Lemma date_compare_refl (d : date) : date_compare d d = Eq.
Proof. unfold date_compare. by rewrite !Z.compare_refl. Qed.

Lemma date_compare_lt_trans (a b c : date) :
  date_compare a b = Lt → date_compare b c = Lt → date_compare a c = Lt.
Proof.
  unfold date_compare.
  destruct (Z.compare_spec (year a) (year b)), (Z.compare_spec (year b) (year c)),
    (Z.compare_spec (year a) (year c)); try done; try lia;
  destruct (Z.compare_spec (month a) (month b)), (Z.compare_spec (month b) (month c)),
    (Z.compare_spec (month a) (month c)); try done; try lia.
  rewrite !Z.compare_lt_iff. lia.
Qed.

Lemma sub_days_le (d : date) (k : nat) : date_le (sub_days d k) d.
Proof.
  unfold date_le. revert d. induction k as [|k IH]; intros d; simpl.
  - by rewrite date_compare_refl.
  - specialize (IH (prev_day d)). pose proof (prev_day_lt d) as Hlt.
    destruct (date_compare (sub_days (prev_day d) k) (prev_day d)) eqn:Hc; [| |done].
    + assert (sub_days (prev_day d) k = prev_day d) as ->; [|by rewrite Hlt].
      unfold date_compare in Hc.
      destruct (sub_days (prev_day d) k) as [y1 m1 d1], (prev_day d) as [y2 m2 d2].
      simpl in Hc.
      destruct (Z.compare_spec y1 y2); try done.
      destruct (Z.compare_spec m1 m2); try done.
      apply Z.compare_eq in Hc. by subst.
    + by rewrite (date_compare_lt_trans _ _ _ Hc Hlt).
Qed.

Lemma replace_day_le (d : date) : 1 ≤ day d → date_le (replace_day d 1) d.
Proof.
  intros Hd. unfold date_le, date_compare, replace_day. cbn [year month day].
  rewrite !Z.compare_refl. apply Z.compare_ngt_iff. lia.
Qed.

Lemma replace_month_day_le (d : date) :
  1 ≤ month d → date_le (replace_month_day d 1 1) (replace_day d 1).
Proof.
  intros Hm. unfold date_le, date_compare, replace_month_day, replace_day.
  cbn [year month day]. rewrite Z.compare_refl.
  destruct (Z.compare_spec 1 (month d)); try done. lia.
Qed.

(** *** Ordinals: stepping back one day is subtracting one from the ordinal *)

Local Ltac split_leap y :=
  unfold is_leap;
  destruct (Z.eqb_spec (y mod 4) 0), (Z.eqb_spec (y mod 100) 0),
    (Z.eqb_spec (y mod 400) 0); cbn [andb orb negb].

Lemma month_cases (m : Z) :
  1 ≤ m ≤ 12 →
  m = 1 ∨ m = 2 ∨ m = 3 ∨ m = 4 ∨ m = 5 ∨ m = 6 ∨ m = 7 ∨ m = 8 ∨
  m = 9 ∨ m = 10 ∨ m = 11 ∨ m = 12.
Proof. lia. Qed.

Lemma days_before_year_pred (y : Z) :
  days_before_year y = days_before_year (y - 1) + (if is_leap (y - 1) then 366 else 365).
Proof.
  unfold days_before_year. cbv zeta. split_leap (y - 1); Z.div_mod_to_equations; lia.
Qed.

Lemma days_before_year_nonneg (y : Z) : 1 ≤ y → 365 * (y - 1) ≤ days_before_year y.
Proof.
  intros Hy. unfold days_before_year. cbv zeta. Z.div_mod_to_equations. lia.
Qed.

Lemma days_before_month_pred (y m : Z) :
  2 ≤ m ≤ 12 →
  days_before_month y m = days_before_month y (m - 1) + days_in_month y (m - 1).
Proof.
  intros Hm. assert (1 ≤ m ≤ 12) as Hc%month_cases by lia.
  unfold days_before_month, days_in_month.
  destruct (is_leap y); destruct_or!; subst m; try lia; reflexivity.
Qed.

Lemma days_before_month_nonneg (y m : Z) : 1 ≤ m ≤ 12 → 0 ≤ days_before_month y m.
Proof.
  intros Hc%month_cases. unfold days_before_month.
  destruct (is_leap y); destruct_or!; subst m; cbn; lia.
Qed.

Lemma toordinal_pos (d : date) : valid_date d → 1 ≤ toordinal d.
Proof.
  intros (Hy & Hm & Hd). unfold toordinal.
  pose proof (days_before_year_nonneg (year d)).
  pose proof (days_before_month_nonneg (year d) (month d) Hm). lia.
Qed.

Lemma toordinal_prev_day (d : date) :
  valid_date d → 2 ≤ toordinal d →
  valid_date (prev_day d) ∧ toordinal (prev_day d) = toordinal d - 1.
Proof.
  intros (Hy & Hm & Hd) Hord. unfold prev_day.
  destruct (Z.ltb_spec 1 (day d)) as [Hday|Hday].
  - split; [|unfold toordinal; cbn [year month day]; lia].
    unfold valid_date. cbn [year month day]. lia.
  - assert (day d = 1) as Hd1 by lia.
    destruct (Z.ltb_spec 1 (month d)) as [Hmon|Hmon].
    + pose proof (days_in_month_bounds (year d) (month d - 1)).
      split; [unfold valid_date; cbn [year month day]; lia|].
      unfold toordinal. cbn [year month day].
      rewrite (days_before_month_pred (year d) (month d)) by lia. lia.
    + assert (month d = 1) as Hm1 by lia.
      unfold toordinal in Hord |- *. cbn [year month day]. rewrite Hm1, Hd1 in *.
      assert (2 ≤ year d) as Hy2.
      { destruct (decide (year d = 1)) as [E|]; [|lia].
        rewrite E in Hord. vm_compute in Hord. by destruct Hord. }
      split; [unfold valid_date; cbn [year month day]; split; [lia|done]|].
      rewrite (days_before_year_pred (year d)).
      unfold days_before_month. cbn [Z.ltb Z.compare Pos.compare Pos.compare_cont andb].
      destruct (is_leap (year d - 1)); cbn; lia.
Qed.

Lemma toordinal_sub_days (k : nat) (d : date) :
  valid_date d → Z.of_nat k < toordinal d →
  valid_date (sub_days d k) ∧ toordinal (sub_days d k) = toordinal d - Z.of_nat k.
Proof.
  revert d. induction k as [|k IH]; intros d Hv Hk; simpl sub_days.
  - split; [done|lia].
  - destruct (toordinal_prev_day d Hv) as [Hv' Ho']; [lia|].
    destruct (IH (prev_day d) Hv') as [Hv'' Ho'']; [lia|].
    split; [done|lia].
Qed.

(** The Monday of the week of [d]: what
    [today - datetime.timedelta(days=today.weekday())] evaluates to. *)
Definition week_start (d : date) : date := sub_days d (Z.to_nat (weekday d)).

Lemma week_start_monday (d : date) :
  valid_date d → valid_date (week_start d) ∧ weekday (week_start d) = 0.
Proof.
  intros Hv. pose proof (toordinal_pos d Hv) as Hpos.
  assert (0 ≤ weekday d < 7) as Hw by (unfold weekday; apply Z.mod_pos_bound; lia).
  assert (weekday d < toordinal d) as Hlt.
  { unfold weekday. Z.div_mod_to_equations. lia. }
  destruct (toordinal_sub_days (Z.to_nat (weekday d)) d Hv) as [Hv' Ho]; [lia|].
  split; [done|]. unfold week_start, weekday at 1. rewrite Ho.
  rewrite Z2Nat.id by lia. unfold weekday. Z.div_mod_to_equations. lia.
Qed.

(** *** Ordinals identify dates *)

Lemma days_before_year_mono (y1 y2 : Z) :
  y1 ≤ y2 → days_before_year y1 ≤ days_before_year y2.
Proof. intros Hy. unfold days_before_year. cbv zeta. Z.div_mod_to_equations. lia. Qed.

Lemma day_of_year_bound (d : date) :
  valid_date d →
  days_before_month (year d) (month d) + day d ≤ if is_leap (year d) then 366 else 365.
Proof.
  intros (_ & Hm & Hd). apply month_cases in Hm.
  unfold days_before_month, days_in_month in *.
  destruct (is_leap (year d)); destruct_or!; rewrite Hm in *; cbn in *; lia.
Qed.

Lemma days_before_month_mono (y m1 m2 : Z) :
  1 ≤ m1 → m1 < m2 → m2 ≤ 12 →
  days_before_month y m1 + days_in_month y m1 ≤ days_before_month y m2.
Proof.
  intros H1 H12 H2.
  assert (1 ≤ m1 ≤ 12) as Hc1%month_cases by lia.
  assert (1 ≤ m2 ≤ 12) as Hc2%month_cases by lia.
  unfold days_before_month, days_in_month.
  destruct (is_leap y); destruct Hc1 as [->|Hc1]; repeat (destruct Hc1 as [->|Hc1]);
    try subst m1; destruct_or!; subst m2; cbn; lia.
Qed.

(** Earlier dates have smaller ordinals. *)
Lemma toordinal_lt (a b : date) :
  valid_date a → valid_date b → date_compare a b = Lt → toordinal a < toordinal b.
Proof.
  intros Ha Hb. pose proof (day_of_year_bound a Ha) as Hdoy.
  destruct Ha as (Hya & Hma & Hda), Hb as (Hyb & Hmb & Hdb).
  unfold date_compare, toordinal.
  destruct (Z.compare_spec (year a) (year b)) as [Ey|Hy|Hy]; [|intros _|done].
  - rewrite <- Ey in *.
    destruct (Z.compare_spec (month a) (month b)) as [Em|Hm|Hm]; [|intros _|done].
    + rewrite <- Em. rewrite Z.compare_lt_iff. lia.
    + pose proof (days_before_month_mono (year a) (month a) (month b)). lia.
  - pose proof (days_before_year_pred (year a + 1)) as Hnext.
    replace (year a + 1 - 1) with (year a) in Hnext by lia.
    pose proof (days_before_year_mono (year a + 1) (year b)).
    pose proof (days_before_month_nonneg (year b) (month b) Hmb).
    destruct (is_leap (year a)); lia.
Qed.

Lemma date_compare_Gt (a b : date) : date_compare a b = Gt → date_compare b a = Lt.
Proof.
  unfold date_compare.
  destruct (Z.compare_spec (year a) (year b)), (Z.compare_spec (year b) (year a));
    try done; try lia;
  destruct (Z.compare_spec (month a) (month b)), (Z.compare_spec (month b) (month a));
    try done; try lia.
  rewrite Z.compare_gt_iff, Z.compare_lt_iff. lia.
Qed.

Lemma date_compare_Eq (a b : date) : date_compare a b = Eq → a = b.
Proof.
  unfold date_compare. destruct a as [y1 m1 d1], b as [y2 m2 d2]. cbn [year month day].
  destruct (Z.compare_spec y1 y2); try done.
  destruct (Z.compare_spec m1 m2); try done.
  intros ->%Z.compare_eq. by subst.
Qed.

Lemma toordinal_inj (a b : date) :
  valid_date a → valid_date b → toordinal a = toordinal b → a = b.
Proof.
  intros Ha Hb Hord. destruct (date_compare a b) eqn:Hc.
  - by apply date_compare_Eq.
  - pose proof (toordinal_lt a b Ha Hb Hc). lia.
  - apply date_compare_Gt in Hc. pose proof (toordinal_lt b a Hb Ha Hc). lia.
Qed.

(** [sub_days d k] is the one date whose ordinal is [toordinal d - k]: the
    value of [date.fromordinal(d.toordinal() - k)]. *)
Lemma sub_days_unique (k : nat) (d d' : date) :
  valid_date d → Z.of_nat k < toordinal d →
  valid_date d' → toordinal d' = toordinal d - Z.of_nat k →
  d' = sub_days d k.
Proof.
  intros Hv Hk Hv' Hord. destruct (toordinal_sub_days k d Hv Hk) as [Hvs Hos].
  apply toordinal_inj; [done..|lia].
Qed.

(** *** The format is monotone: string order agrees with date order *)

Definition lex (c1 c2 : comparison) : comparison :=
  match c1 with Eq => c2 | _ => c1 end.

Lemma digit_compare (i j : Z) :
  0 ≤ i ≤ 9 → 0 ≤ j ≤ 9 → Ascii.compare (digit i) (digit j) = (i ?= j).
Proof.
  intros Hi Hj. unfold Ascii.compare, digit.
  rewrite !N_ascii_embedding by lia.
  destruct (Z.compare_spec i j) as [->| |].
  - apply N.compare_refl.
  - apply N.compare_lt_iff. lia.
  - apply N.compare_gt_iff. lia.
Qed.

Lemma compare_digit (i j : Z) (s t : string) :
  0 ≤ i ≤ 9 → 0 ≤ j ≤ 9 →
  String.compare (String (digit i) s) (String (digit j) t) =
  lex (i ?= j) (String.compare s t).
Proof.
  intros Hi Hj. rewrite StrOrder.compare_cons, digit_compare by done.
  by destruct (i ?= j).
Qed.

Lemma pad2_compare (m n : Z) (s t : string) :
  0 ≤ m ≤ 99 → 0 ≤ n ≤ 99 →
  String.compare (pad2 m s) (pad2 n t) = lex (m ?= n) (String.compare s t).
Proof.
  intros Hm Hn. unfold pad2.
  rewrite !compare_digit by (Z.div_mod_to_equations; lia).
  destruct (Z.compare_spec (m / 10 mod 10) (n / 10 mod 10)),
    (Z.compare_spec (m mod 10) (n mod 10)), (Z.compare_spec m n);
    try reflexivity; exfalso; Z.div_mod_to_equations; lia.
Qed.

Lemma pad4_compare (m n : Z) (s t : string) :
  0 ≤ m ≤ 9999 → 0 ≤ n ≤ 9999 →
  String.compare (pad4 m s) (pad4 n t) = lex (m ?= n) (String.compare s t).
Proof.
  intros Hm Hn. unfold pad4, pad2.
  rewrite !compare_digit by (Z.div_mod_to_equations; lia).
  destruct (Z.compare_spec (m / 1000 mod 10) (n / 1000 mod 10)),
    (Z.compare_spec (m / 100 mod 10) (n / 100 mod 10)),
    (Z.compare_spec (m / 10 mod 10) (n / 10 mod 10)),
    (Z.compare_spec (m mod 10) (n mod 10)), (Z.compare_spec m n);
    try reflexivity; exfalso; Z.div_mod_to_equations; lia.
Qed.

Lemma strftime_compare (a b : date) :
  printable a → printable b →
  String.compare (strftime a) (strftime b) = date_compare a b.
Proof.
  intros (Hya & Hma & Hda) (Hyb & Hmb & Hdb). unfold strftime, date_compare.
  rewrite pad4_compare, StrOrder.compare_cons by done.
  rewrite StrOrder.ascii_compare_refl, pad2_compare, StrOrder.compare_cons by done.
  rewrite StrOrder.ascii_compare_refl, pad2_compare by done.
  destruct (year a ?= year b), (month a ?= month b), (day a ?= day b); reflexivity.
Qed.

Lemma strftime_mono (a b : date) :
  printable a → printable b → date_le a b →
  String.leb (strftime a) (strftime b) = true.
Proof.
  intros Ha Hb Hle. apply StrOrder.leb_Gt. by rewrite strftime_compare.
Qed.

End Calendar.

(** ** Python built-ins used by the code, over exact amounts *)

Module Py.

(** [sum(xs)]: a left fold from [0]. *)
Definition py_sum (xs : list Qc) : Qc := foldl Qcplus 0%Qc xs.


(** [xs[:limit]] for an [int] limit: a negative limit counts from the end. *)
Definition slice_to {A : Type} (limit : Z) (xs : list A) : list A :=
  if 0 <=? limit then take (Z.to_nat limit) xs
  else take (length xs - Z.to_nat (- limit)) xs.

(** [a / b] on numbers: [ZeroDivisionError] when [b] is zero. *)
Definition py_div (a b : Qc) : option Qc :=
  if decide (b = 0%Qc) then None else Some (a / b)%Qc.

(** [b ** e] for an [int] exponent: a negative power of zero raises
    [ZeroDivisionError]. *)
Definition py_pow (b : Qc) (e : Z) : option Qc :=
  if 0 <=? e then Some (b ^ Z.to_nat e)%Qc
  else if decide (b = 0%Qc) then None
       else Some (/ (b ^ Z.to_nat (- e)))%Qc.

Section Sorted.
Context {A K : Type} (le : K → K → bool) (key : A → K).

(** [sorted(xs, key=key, reverse=True)]: descending by key, and stable:
    items with equal keys keep the order they had in [xs].  The result of a
    stable sort is determined by that, so insertion sort stands for it. *)
Fixpoint insert_desc (x : A) (sorted : list A) : list A :=
  match sorted with
  | [] => [x]
  | y :: rest =>
      if le (key y) (key x) then x :: y :: rest else y :: insert_desc x rest
  end.

Fixpoint sorted_desc (xs : list A) : list A :=
  match xs with
  | [] => []
  | x :: xs' => insert_desc x (sorted_desc xs')
  end.

(** Adjacent items are in descending key order. *)
Definition desc (a b : A) : Prop := le (key b) (key a) = true.
End Sorted.

(** An insertion-ordered [dict] from category to amount. *)
Abbreviation pydict := (list (string * Qc)).

(** [d.get(k)]. *)
Fixpoint dict_get (d : pydict) (k : string) : option Qc :=
  match d with
  | [] => None
  | (k', v) :: d' => if decide (k' = k) then Some v else dict_get d' k
  end.

(** [d[k] += v] on a [defaultdict(float)]: a missing key starts from zero and
    is appended; a present key is updated in place. *)
Fixpoint dict_iadd (d : pydict) (k : string) (v : Qc) : pydict :=
  match d with
  | [] => [(k, (0 + v)%Qc)]
  | (k', x) :: d' =>
      if decide (k' = k) then (k', (x + v)%Qc) :: d' else (k', x) :: dict_iadd d' k v
  end.

(** [d.values()] and [d.keys()]. *)
Definition dict_values (d : pydict) : list Qc := d.*2.
Definition dict_keys (d : pydict) : list string := d.*1.

(** Closed, decidable goals over [Qc] are settled by evaluation. *)
Ltac by_evaluation :=
  match goal with
  | |- ?P => apply (bool_decide_eq_true_1 P); vm_compute; reflexivity
  end.

(** *** Facts *)




Lemma py_div_Some (a b : Qc) : b ≠ 0%Qc → py_div a b = Some (a / b)%Qc.
Proof. intros Hb. unfold py_div. by rewrite decide_False. Qed.

Lemma py_div_None (a : Qc) : py_div a 0%Qc = None.
Proof. unfold py_div. by rewrite decide_True. Qed.

Lemma py_div_is_Some (a b : Qc) : is_Some (py_div a b) ↔ b ≠ 0%Qc.
Proof.
  unfold py_div. destruct (decide (b = 0%Qc)) as [->|Hb]; split; try done.
Qed.

Lemma slice_to_length {A : Type} (limit : Z) (xs : list A) :
  0 ≤ limit → Z.of_nat (length (slice_to limit xs)) ≤ limit.
Proof.
  intros Hl. unfold slice_to. destruct (Z.leb_spec 0 limit); [|lia].
  rewrite length_take. lia.
Qed.



Section SortedFacts.
Context {A K : Type} (le : K → K → bool) (key : A → K).
Hypothesis le_total : ∀ a b, le a b = false → le b a = true.

Lemma insert_desc_perm (x : A) (l : list A) : insert_desc le key x l ≡ₚ x :: l.
Proof.
  induction l as [|y l IH]; simpl; [done|].
  destruct (le (key y) (key x)); [done|].
  rewrite IH. apply Permutation_swap.
Qed.

Lemma sorted_desc_perm (l : list A) : sorted_desc le key l ≡ₚ l.
Proof.
  induction l as [|x l IH]; simpl; [done|].
  by rewrite insert_desc_perm, IH.
Qed.

Lemma insert_desc_hd (x a : A) (l : list A) :
  desc le key a x → HdRel (desc le key) a l → HdRel (desc le key) a (insert_desc le key x l).
Proof.
  intros Hax Hal. destruct l as [|y l]; simpl; [by constructor|].
  destruct (le (key y) (key x)); constructor; [done|].
  by inversion Hal.
Qed.

Lemma insert_desc_sorted (x : A) (l : list A) :
  Sorted (desc le key) l → Sorted (desc le key) (insert_desc le key x l).
Proof.
  induction 1 as [|y l Hs IH Hhd]; simpl.
  - by repeat constructor.
  - destruct (le (key y) (key x)) eqn:Hle.
    + constructor; [by constructor|]. by constructor.
    + constructor; [done|]. apply insert_desc_hd; [|done].
      unfold desc. by apply le_total.
Qed.

Lemma sorted_desc_sorted (l : list A) : Sorted (desc le key) (sorted_desc le key l).
Proof.
  induction l as [|x l IH]; simpl; [constructor|].
  by apply insert_desc_sorted.
Qed.

Lemma take_sorted (n : nat) (l : list A) :
  Sorted (desc le key) l → Sorted (desc le key) (take n l).
Proof.
  intros Hs. revert n. induction Hs as [|y l Hs IH Hhd]; intros [|n]; simpl;
    try constructor.
  - apply IH.
  - destruct Hhd as [|z l Hyz]; destruct n; simpl; by constructor.
Qed.

Lemma slice_to_sorted (limit : Z) (l : list A) :
  Sorted (desc le key) l → Sorted (desc le key) (slice_to limit l).
Proof. intros Hs. unfold slice_to. destruct (0 <=? limit); by apply take_sorted. Qed.
End SortedFacts.


Lemma dict_iadd_keys (d : pydict) (k : string) (v : Qc) :
  dict_keys (dict_iadd d k v) =
  if decide (k ∈ dict_keys d) then dict_keys d else dict_keys d ++ [k].
Proof.
  unfold dict_keys. induction d as [|[k0 x] d IH].
  - destruct (decide (k ∈ [].*1)) as [Hin|_]; [|done].
    by apply elem_of_nil in Hin.
  - cbn [dict_iadd]. destruct (decide (k0 = k)) as [->|Hne].
    + rewrite !fmap_cons. cbn [fst]. rewrite decide_True; [done|]. apply list_elem_of_here.
    + rewrite !fmap_cons, IH. cbn [fst].
      destruct (decide (k ∈ d.*1)) as [Hin|Hnin].
      * rewrite decide_True; [done|]. by apply list_elem_of_further.
      * rewrite decide_False; [done|]. rewrite elem_of_cons. by intros [->|?].
Qed.

(** *** More on sorting, slicing and sums *)

Section SortedMore.
Context {A K : Type} (le : K → K → bool) (key : A → K).

Lemma sorted_desc_length (l : list A) : length (sorted_desc le key l) = length l.
Proof. apply Permutation_length, sorted_desc_perm. Qed.

(** Sorting leaves a list that is already in descending order as it is. *)
Lemma sorted_desc_fixed (l : list A) :
  Sorted (desc le key) l → sorted_desc le key l = l.
Proof.
  induction 1 as [|x l Hs IH Hhd]; cbn [sorted_desc]; [done|].
  rewrite IH. destruct Hhd as [|y l Hxy]; cbn [insert_desc]; [done|].
  unfold desc in Hxy. by rewrite Hxy.
Qed.

(** In a descending list no item after position [n] is above one before it. *)
Lemma sorted_take_drop (n : nat) (l : list A) (x y : A) :
  Transitive (desc le key) →
  Sorted (desc le key) l → x ∈ take n l → y ∈ drop n l → desc le key x y.
Proof.
  intros Htr Hs%Sorted_StronglySorted; [|done]. revert n.
  induction Hs as [|a l Hs IH Hall]; intros n Hx Hy.
  - rewrite take_nil in Hx. by apply elem_of_nil in Hx.
  - destruct n as [|n]; [by apply elem_of_nil in Hx|].
    cbn [take drop] in Hx, Hy. apply elem_of_cons in Hx as [->|Hx]; [|by eapply IH].
    rewrite List.Forall_forall in Hall. apply Hall, list_elem_of_In.
    eapply elem_of_sublist; [done|apply sublist_drop].
Qed.
End SortedMore.

Lemma fmap_sorted {A B K : Type} (le : K → K → bool) (key : A → K) (key' : B → K)
    (f : A → B) (l : list A) :
  (∀ a, key' (f a) = key a) →
  Sorted (desc le key) l → Sorted (desc le key') (f <$> l).
Proof.
  intros Hkey. induction 1 as [|x l Hs IH Hhd]; csimpl; constructor; [done|].
  destruct Hhd as [|y l Hxy]; csimpl; constructor. unfold desc in *. by rewrite !Hkey.
Qed.

Lemma slice_to_nonneg {A : Type} (limit : Z) (xs : list A) :
  0 ≤ limit → slice_to limit xs = take (Z.to_nat limit) xs.
Proof. intros Hl. unfold slice_to. by rewrite (proj2 (Z.leb_le 0 limit) Hl). Qed.

Lemma slice_to_all {A : Type} (limit : Z) (xs : list A) :
  Z.of_nat (length xs) ≤ limit → slice_to limit xs = xs.
Proof. intros Hl. rewrite slice_to_nonneg by lia. apply take_ge. lia. Qed.


End Py.

(** ** Python's [float]: binary64 arithmetic *)

Module PyFloat.
Import PrimFloat SpecFloat FloatOps FloatAxioms.

#[local] Set Warnings "-inexact-float".

(** The exceptions of the arithmetic the code performs. *)
Inductive exception := ZeroDivisionError | OverflowError.

(** A call returns a value or raises. *)
Inductive outcome (A : Type) :=
  | Returned (v : A)
  | Raised (e : exception).
Arguments Returned {A} v.
Arguments Raised {A} e.

#[export] Instance outcome_bind : MBind outcome := λ A B f o,
  match o with
  | Returned v => f v
  | Raised e => Raised e
  end.

(** [sum(xs)] over floats, as CPython evaluates it up to version 3.11: the
    additions are done left to right in binary64, starting from zero (the
    [int] 0 that starts the sum is converted when the first float is added; an
    empty sum, the [int] 0, is read as the float of the same value). *)
Definition py_sum (xs : list float) : float := foldl PrimFloat.add 0%float xs.

(** An insertion-ordered [dict] from category to amount. *)
Abbreviation pydict := (list (string * float)).

(** [d.get(k)]. *)
Fixpoint dict_get (d : pydict) (k : string) : option float :=
  match d with
  | [] => None
  | (k', v) :: d' => if decide (k' = k) then Some v else dict_get d' k
  end.

(** [d[k] += v] on a [defaultdict(float)]: a missing key starts from [0.0]
    and is appended; a present key is updated in place. *)
Fixpoint dict_iadd (d : pydict) (k : string) (v : float) : pydict :=
  match d with
  | [] => [(k, (0 + v)%float)]
  | (k', x) :: d' =>
      if decide (k' = k) then (k', (x + v)%float) :: d' else (k', x) :: dict_iadd d' k v
  end.

Definition dict_values (d : pydict) : list float := d.*2.
Definition dict_keys (d : pydict) : list string := d.*1.

(** The test of [sorted(..., reverse=True)] on two float keys: an item stays
    in front of a later one unless it compares below it.  Where [<] orders
    the keys totally (no NaN among them) this determines the result. *)
Definition not_below (a b : float) : bool := negb (b <? a)%float.

(** An [int] operand of a float operation is converted to the nearest
    float, ties to even; [OverflowError] when it is out of range. *)
Definition float_of_int (z : Z) : outcome float :=
  match binary_normalize prec emax z 0 false with
  | S754_infinity _ => Raised OverflowError
  | s => Returned (SF2Prim s)
  end.

(** [a / b] on two floats. *)
Definition truediv (a b : float) : outcome float :=
  if (b =? 0)%float then Raised ZeroDivisionError else Returned (a / b)%float.

(** [a / z] for an [int] divisor: [ZeroDivisionError] when it is zero (a
    non-zero [int] does not convert to zero). *)
Definition truediv_int (a : float) (z : Z) : outcome float :=
  if decide (z = 0) then Raised ZeroDivisionError
  else d ← float_of_int z; Returned (a / d)%float.

(** [fmod(fabs(x), 2.0) == 1.0]. *)
Definition is_odd_integer (x : float) : bool :=
  match Prim2SF x with
  | S754_finite _ m e =>
      if 0 <? e then false
      else (Z.land (Z.pos m) (Z.ones (- e)) =? 0) && Z.odd (Z.shiftr (Z.pos m) (- e))
  | _ => false
  end.

(** [copysign(0.0, x)]. *)
Definition copysign_zero (x : float) : float :=
  if get_sign x then neg_zero else zero.

Section Pow.
(** The C library's [pow].  It is called on a finite positive base other than
    1 and a finite non-zero exponent only; there it reports an overflow by
    returning an infinity, and an underflow to zero is not an error. *)
Variable libm_pow : float → float → float.

(** [float_pow] of CPython on the two converted operands: the special cases
    are decided before [pow] is called. *)
Definition float_pow (iv iw : float) : outcome float :=
  if (iw =? 0)%float then Returned 1%float
  else if is_nan iv then Returned iv
  else if is_nan iw then Returned (if (iv =? 1)%float then 1%float else iw)
  else if is_infinity iw then
    let iv := abs iv in
    if (iv =? 1)%float then Returned 1%float
    else if Bool.eqb (0 <? iw)%float (1 <? iv)%float then Returned (abs iw)
    else Returned 0%float
  else if is_infinity iv then
    let iw_is_odd := is_odd_integer iw in
    if (0 <? iw)%float then Returned (if iw_is_odd then iv else abs iv)
    else Returned (if iw_is_odd then copysign_zero iv else 0%float)
  else if (iv =? 0)%float then
    let iw_is_odd := is_odd_integer iw in
    if (iw <? 0)%float then Raised ZeroDivisionError
    else Returned (if iw_is_odd then iv else 0%float)
  else
    let negate_result := (iv <? 0)%float && is_odd_integer iw in
    let iv := if (iv <? 0)%float then (- iv)%float else iv in
    if (iv =? 1)%float then Returned (if negate_result then (- 1)%float else 1%float)
    else
      let ix := libm_pow iv iw in
      let ix := if negate_result then (- ix)%float else ix in
      if is_infinity ix then Raised OverflowError else Returned ix.

(** [b ** w] for a float base and an [int] exponent: the exponent is
    converted first.  A converted [int] is integral, so the branch of
    [float_pow] that hands a negative base with a fractional exponent to
    complex arithmetic is not taken. *)
Definition pow_int (b : float) (w : Z) : outcome float :=
  iw ← float_of_int w; float_pow b iw.
End Pow.

(** *** Facts *)

Lemma shr_fexp_canonical (m : positive) (e : Z) :
  fexp prec emax (Z.pos (digits2_pos m) + e) = e →
  shr_fexp prec emax (Z.pos m) e loc_Exact =
  ({| shr_m := Z.pos m; shr_r := false; shr_s := false |}, e).
Proof.
  intros Hc. unfold shr_fexp, Zdigits2. rewrite Hc, Z.sub_diag. reflexivity.
Qed.

(** Multiplying by [1.0] changes nothing: not the value, not the sign of a
    zero, not an infinity, not a NaN. *)
Lemma mul_1_r (x : float) : (x * 1)%float = x.
Proof.
  apply Prim2SF_inj. rewrite mul_spec.
  pose proof (Prim2SF_valid x) as Hv.
  change (Prim2SF 1%float) with (S754_finite false 4503599627370496 (-52)).
  destruct (Prim2SF x) as [s|s| |s m e]; [by destruct s|by destruct s|done|].
  unfold SF64mul, SFmul. rewrite Bool.xorb_false_r.
  cbn [SpecFloat.valid_binary] in Hv. unfold bounded, canonical_mantissa in Hv.
  apply andb_prop in Hv as [Hc He]. apply Z.eqb_eq in Hc.
  rewrite Pos.mul_comm. unfold binary_round_aux.
  assert (shr_fexp prec emax (Z.pos (4503599627370496 * m)) (e + -52) loc_Exact =
          ({| shr_m := Z.pos m; shr_r := false; shr_s := false |}, e)) as ->.
  { unfold shr_fexp, Zdigits2.
    assert (Z.pos (digits2_pos (4503599627370496 * m)) = Z.pos (digits2_pos m) + 52) as ->.
    { cbv [Pos.mul digits2_pos]. lia. }
    replace (Z.pos (digits2_pos m) + 52 + (e + -52)) with (Z.pos (digits2_pos m) + e) by lia.
    rewrite Hc. replace (e - (e + -52)) with 52 by lia.
    cbv [Pos.mul shr shr_record_of_loc iter_pos shr_1 orb]. f_equal. lia. }
  cbn [shr_m loc_of_shr_record round_nearest_even].
  rewrite shr_fexp_canonical by done. cbn [shr_m]. by rewrite He.
Qed.

(** A float that [==] finds equal to zero is one of the two zeros. *)
Lemma eqb_zero (x : float) :
  (x =? 0)%float = true → ∃ s, Prim2SF x = S754_zero s.
Proof.
  rewrite eqb_spec. change (Prim2SF 0%float) with (S754_zero false).
  destruct (Prim2SF x) as [s|s| |s m e]; [by exists s| | |]; intros H; exfalso;
    try destruct s; discriminate H.
Qed.


(** Adding a zero to [1.0] gives [1.0]. *)
Lemma add_1_zero (r : float) : (r =? 0)%float = true → (1 + r)%float = 1%float.
Proof.
  intros [s Hr]%eqb_zero. apply Prim2SF_inj. rewrite add_spec, Hr. reflexivity.
Qed.






Lemma float_pow_zero (libm_pow : float → float → float) (b : float) :
  float_pow libm_pow b 0 = Returned 1%float.
Proof. reflexivity. Qed.

(** [1.0 ** y] is [1.0] whatever the exponent; [pow] is not called. *)
Lemma float_pow_one (libm_pow : float → float → float) (y : float) :
  float_pow libm_pow 1 y = Returned 1%float.
Proof.
  unfold float_pow.
  destruct (y =? 0)%float; [done|].
  change (is_nan 1) with false. cbv iota.
  destruct (is_nan y); [done|].
  destruct (is_infinity y); [done|].
  reflexivity.
Qed.

Lemma pow_int_zero (libm_pow : float → float → float) (b : float) :
  pow_int libm_pow b 0 = Returned 1%float.
Proof. reflexivity. Qed.

Lemma pow_int_one (libm_pow : float → float → float) (w : Z) :
  pow_int libm_pow 1 w = (_ ← float_of_int w; Returned 1%float).
Proof.
  unfold pow_int. destruct (float_of_int w) as [y|e]; [|done].
  apply float_pow_one.
Qed.

End PyFloat.

(** ** [script.py]: class [BudgetManager], amounts as exact rationals *)

Module BudgetManager.
Import StrOrder Calendar Py.

(** The two kinds of ledger record, as the dictionaries the code appends. *)
Record Income := mkIncome {
  i_amount : Qc;
  i_source : string;
  i_date : string
}.

Record Expense := mkExpense {
  e_amount : Qc;
  e_category : string;
  e_description : string;
  e_date : string
}.

(** The keys both kinds share: [item["date"]] and [item["amount"]]. *)
Class Item (A : Type) := {
  item_date : A → string;
  item_amount : A → Qc
}.

#[export] Instance income_item : Item Income :=
  {| item_date := i_date; item_amount := i_amount |}.
#[export] Instance expense_item : Item Expense :=
  {| item_date := e_date; item_amount := e_amount |}.

(** [self.data]: [{"income": [...], "expenses": [...]}]. *)
Record Data := mkData {
  income : list Income;
  expenses : list Expense
}.

(** What [budget_data.json] holds. *)
Inductive file_state :=
  | NoFile
  | Unparsable
  | Stored (d : Data).

Record manager := mkManager {
  filename : string;
  data : Data;
  categories : gset string;
  file : file_state
}.

Definition default_categories : gset string :=
  list_to_set ["Groceries"; "Housing"; "Transportation"; "Entertainment"; "Utilities";
               "Healthcare"; "Savings"; "Debt"; "Personal"; "Miscellaneous"]%string.

(** [_load_data]: the stored record, or a fresh one when the file is absent or
    does not parse. *)
Definition _load_data (f : file_state) : Data :=
  match f with
  | Stored d => d
  | Unparsable => mkData [] []
  | NoFile => mkData [] []
  end.

(** [__init__]. *)
Definition new (name : string) (f : file_state) : manager :=
  {| filename := name; data := _load_data f;
     categories := default_categories; file := f |}.

(** [_save_data]: the whole record is rewritten. *)
Definition _save_data (self : manager) : manager :=
  {| filename := filename self; data := data self;
     categories := categories self; file := Stored (data self) |}.

(** [date] or, when it is [None], today's date as text. *)
Definition date_or_today (now : date) (d : option string) : string :=
  match d with
  | None => strftime now
  | Some s => s
  end.

Definition add_income (now : date) (self : manager)
    (amount : Qc) (source : string) (d : option string) : manager * bool :=
  let d := date_or_today now d in
  let item := {| i_amount := amount; i_source := source; i_date := d |} in
  let self := {| filename := filename self;
                 data := mkData (income (data self) ++ [item]) (expenses (data self));
                 categories := categories self; file := file self |} in
  (_save_data self, true).

Definition add_expense (now : date) (self : manager)
    (amount : Qc) (category description : string) (d : option string) : manager * bool :=
  let d := date_or_today now d in
  let cats := if decide (category ∉ categories self)
              then categories self ∪ {[category]} else categories self in
  let item := {| e_amount := amount; e_category := category;
                 e_description := description; e_date := d |} in
  let self := {| filename := filename self;
                 data := mkData (income (data self)) (expenses (data self) ++ [item]);
                 categories := cats; file := file self |} in
  (_save_data self, true).

(** The [if]/[elif] chain of [_filter_by_period]: the start date of a
    recognised period, [None] on the final [else]. *)
Definition start_date (today : date) (period : string) : option string :=
  if decide (period = "day"%string) then Some (strftime today)
  else if decide (period = "week"%string)
       then Some (strftime (sub_days today (Z.to_nat (weekday today))))
  else if decide (period = "month"%string) then Some (strftime (replace_day today 1))
  else if decide (period = "year"%string) then Some (strftime (replace_month_day today 1 1))
  else None.

Definition _filter_by_period {A : Type} `{Item A}
    (now : date) (items : list A) (period : option string) : list A :=
  match period with
  | None => items
  | Some p =>
      let today := now in
      match start_date today p with
      | Some start => List.filter (λ item, str_ge (item_date item) start) items
      | None => items
      end
  end.

Record Summary := mkSummary {
  total_income : Qc;
  total_expenses : Qc;
  balance : Qc;
  expenses_by_category : pydict
}.

(** The loop [expenses_by_category[expense["category"]] += expense["amount"]]. *)
Definition by_category (exps : list Expense) : pydict :=
  foldl (λ d expense, dict_iadd d (e_category expense) (e_amount expense)) [] exps.

Definition get_summary (now : date) (self : manager) (period : option string) : Summary :=
  let inc := _filter_by_period now (income (data self)) period in
  let exps := _filter_by_period now (expenses (data self)) period in
  let total_income := py_sum (item_amount <$> inc) in
  let total_expenses := py_sum (item_amount <$> exps) in
  let balance := (total_income - total_expenses)%Qc in
  {| total_income := total_income; total_expenses := total_expenses;
     balance := balance; expenses_by_category := by_category exps |}.

(** The four messages of [get_spending_advice]. *)
Definition warning_msg : string := "⚠️ Warning: You're spending more than you earn!".
Definition cut_back_msg (top_category : string) : string :=
  "Consider cutting back on " +:+ top_category +:+ ", your highest expense category.".
Definition savings_msg : string := "Try to save at least 10% of your income.".
Definition good_msg : string := "Your budget looks good!".

Definition Qc_leb (a b : Qc) : bool := bool_decide (a ≤ b)%Qc.

(** The amount under the literal category ["Savings"], zero when absent. *)
Definition savings_of (summary : Summary) : Qc :=
  default 0%Qc (dict_get (expenses_by_category summary) "Savings").

(** The clock is passed on to [get_summary], which does not read it when the
    period is [None]. *)
Definition get_spending_advice (now : date) (self : manager) : list string :=
  let summary := get_summary now self None in
  let advice := [] in
  let advice :=
    if bool_decide (balance summary < 0)%Qc then
      let advice := advice ++ [warning_msg] in
      let cats := sorted_desc Qc_leb snd (expenses_by_category summary) in
      match cats with
      | (top_category, _) :: _ => advice ++ [cut_back_msg top_category]
      | [] => advice
      end
    else advice in
  let savings := savings_of summary in
  let advice :=
    if bool_decide (savings < total_income summary * Q2Qc (1 # 10))%Qc
    then advice ++ [savings_msg] else advice in
  match advice with
  | [] => [good_msg]
  | _ => advice
  end.

(** A row of [get_transactions]. *)
Record Transaction := mkTransaction {
  t_type : string;
  t_date : string;
  t_amount : Qc;
  t_category : string;
  t_description : string
}.

Definition income_row (item : Income) : Transaction :=
  {| t_type := "Income"; t_date := i_date item; t_amount := i_amount item;
     t_category := i_source item; t_description := i_source item |}.

Definition expense_row (item : Expense) : Transaction :=
  {| t_type := "Expense"; t_date := e_date item; t_amount := e_amount item;
     t_category := e_category item; t_description := e_description item |}.

Definition get_transactions (self : manager) (transaction_type : string) (limit : Z)
    : list Transaction :=
  let transactions := [] in
  let transactions :=
    if decide (transaction_type = "income"%string ∨ transaction_type = "all"%string)
    then transactions ++
         (income_row <$> slice_to limit (sorted_desc String.leb i_date (income (data self))))
    else transactions in
  let transactions :=
    if decide (transaction_type = "expenses"%string ∨ transaction_type = "all"%string)
    then transactions ++
         (expense_row <$> slice_to limit (sorted_desc String.leb e_date (expenses (data self))))
    else transactions in
  slice_to limit (sorted_desc String.leb t_date transactions).

(** A call on the ledger, with the reading of the clock at the time of the call. *)
Inductive call :=
  | record_income (now : date) (amount : Qc) (source : string) (d : option string)
  | record_expense (now : date) (amount : Qc) (category description : string)
      (d : option string).

Definition perform (self : manager) (c : call) : manager :=
  match c with
  | record_income now amount source d => (add_income now self amount source d).1
  | record_expense now amount category description d =>
      (add_expense now self amount category description d).1
  end.

Definition run (self : manager) (calls : list call) : manager := foldl perform self calls.

(** The amounts the calls recorded, by kind. *)
Definition income_amounts (calls : list call) : list Qc :=
  omap (λ c, match c with record_income _ amount _ _ => Some amount | _ => None end) calls.
Definition expense_amounts (calls : list call) : list Qc :=
  omap (λ c, match c with record_expense _ amount _ _ _ => Some amount | _ => None end) calls.

(** The scenario of the specification. *)
Definition scenario : list call :=
  [ record_income (mkDate 2024 1 5) (Qc_of_Z 3000) "Salary" (Some "2024-01-05"%string);
    record_expense (mkDate 2024 1 6) (Qc_of_Z 500) "Groceries" "Weekly shop"
      (Some "2024-01-06"%string);
    record_expense (mkDate 2024 1 6) (Qc_of_Z 1000) "Housing" "Rent"
      (Some "2024-01-01"%string) ].

Example scenario_summary :
  let s := get_summary (mkDate 2024 1 7) (run (new "budget_data.json" NoFile) scenario) None in
  total_income s = Qc_of_Z 3000 ∧ total_expenses s = Qc_of_Z 1500 ∧
  balance s = Qc_of_Z 1500 ∧
  expenses_by_category s = [("Groceries"%string, Qc_of_Z 500); ("Housing"%string, Qc_of_Z 1000)].
Proof. repeat split; by_evaluation. Qed.

(** *** The ledger after a sequence of calls *)

Lemma perform_income_amounts (self : manager) (c : call) :
  i_amount <$> income (data (perform self c)) =
  (i_amount <$> income (data self)) ++ income_amounts [c].
Proof.
  destruct c; cbn.
  - by rewrite fmap_app.
  - by rewrite app_nil_r.
Qed.

Lemma perform_expense_amounts (self : manager) (c : call) :
  e_amount <$> expenses (data (perform self c)) =
  (e_amount <$> expenses (data self)) ++ expense_amounts [c].
Proof.
  destruct c; cbn.
  - by rewrite app_nil_r.
  - by rewrite fmap_app.
Qed.

Lemma run_income_amounts (calls : list call) (self : manager) :
  i_amount <$> income (data (run self calls)) =
  (i_amount <$> income (data self)) ++ income_amounts calls.
Proof.
  revert self. induction calls as [|c calls IH]; intros self.
  - cbn. by rewrite app_nil_r.
  - change (run self (c :: calls)) with (run (perform self c) calls).
    rewrite IH, perform_income_amounts, <- app_assoc. f_equal.
    unfold income_amounts. by rewrite <- omap_app.
Qed.

Lemma run_expense_amounts (calls : list call) (self : manager) :
  e_amount <$> expenses (data (run self calls)) =
  (e_amount <$> expenses (data self)) ++ expense_amounts calls.
Proof.
  revert self. induction calls as [|c calls IH]; intros self.
  - cbn. by rewrite app_nil_r.
  - change (run self (c :: calls)) with (run (perform self c) calls).
    rewrite IH, perform_expense_amounts, <- app_assoc. f_equal.
    unfold expense_amounts. by rewrite <- omap_app.
Qed.

(** With no period the clock is not read. *)
Lemma get_summary_None_clock (now now' : date) (self : manager) :
  get_summary now self None = get_summary now' self None.
Proof. reflexivity. Qed.

(** Every call is written through to the file. *)
Lemma perform_saved (self : manager) (c : call) :
  file (perform self c) = Stored (data (perform self c)).
Proof. by destruct c. Qed.

(** An unseen category is registered, a known one changes nothing. *)
Lemma add_expense_categories (now : date) (self : manager) (amount : Qc)
    (category description : string) (d : option string) :
  categories (add_expense now self amount category description d).1 =
  categories self ∪ {[category]}.
Proof.
  cbn. destruct (decide (category ∉ categories self)) as [|Hin]; [done|].
  apply dec_stable in Hin. symmetry. rewrite (comm_L (∪)).
  by apply subseteq_union_1_L, singleton_subseteq_l.
Qed.

(** *** The category breakdown *)

Definition in_category (k : string) (exps : list Expense) : list Expense :=
  List.filter (λ e, bool_decide (e_category e = k)) exps.



(** *** The period filter *)

(** Everything that passes the filter for [p] also passes the filter for [q]. *)
Definition period_subset {A : Type} `{Item A}
    (today : date) (items : list A) (p q : option string) : Prop :=
  ∀ x, x ∈ _filter_by_period today items p → x ∈ _filter_by_period today items q.

(** The chain day, week, month, year, no filter. *)
Definition period_chain {A : Type} `{Item A} (today : date) (items : list A) : Prop :=
  period_subset today items (Some "day"%string) (Some "week"%string) ∧
  period_subset today items (Some "week"%string) (Some "month"%string) ∧
  period_subset today items (Some "month"%string) (Some "year"%string) ∧
  period_subset today items (Some "year"%string) None.

Lemma elem_of_filter_ge {A : Type} `{Item A} (start : string) (items : list A) (x : A) :
  x ∈ List.filter (λ item, str_ge (item_date item) start) items ↔
  x ∈ items ∧ str_ge (item_date x) start = true.
Proof. rewrite !list_elem_of_In. apply filter_In. Qed.

(** A later start date keeps fewer items. *)
Lemma filter_ge_mono {A : Type} `{Item A} (s1 s2 : string) (items : list A) (x : A) :
  String.leb s2 s1 = true →
  x ∈ List.filter (λ item, str_ge (item_date item) s1) items →
  x ∈ List.filter (λ item, str_ge (item_date item) s2) items.
Proof.
  rewrite !elem_of_filter_ge. intros Hle [Hx Hge]. split; [done|].
  by apply (str_ge_trans _ s1 s2).
Qed.

Lemma filter_subset_all {A : Type} `{Item A} (today : date) (items : list A)
    (p : option string) :
  period_subset today items p None.
Proof.
  intros x. unfold _filter_by_period. destruct p as [p|]; [|done].
  cbv zeta. destruct (start_date today p); [|done].
  rewrite elem_of_filter_ge. by intros [? _].
Qed.

Lemma filter_Some {A : Type} `{Item A} (today : date) (items : list A) (p start : string) :
  start_date today p = Some start →
  _filter_by_period today items (Some p) =
  List.filter (λ item, str_ge (item_date item) start) items.
Proof. intros Hs. unfold _filter_by_period. cbv zeta. by rewrite Hs. Qed.

(** C2 (amended). For a fixed current date the period filters are nested as
    day within week, day within month, month within year, and every period
    within no filter.  The week is within the month (within the year) when the
    Monday that starts the week is not before the first of the month (of the
    year). *)
Theorem period_filter_monotone {A : Type} `{Item A} (today : date) (items : list A) :
  valid_date today →
  period_subset today items (Some "day"%string) (Some "week"%string) ∧
  period_subset today items (Some "day"%string) (Some "month"%string) ∧
  period_subset today items (Some "month"%string) (Some "year"%string) ∧
  period_subset today items (Some "year"%string) None ∧
  period_subset today items (Some "week"%string) None ∧
  (date_le (replace_day today 1) (week_start today) →
   period_subset today items (Some "week"%string) (Some "month"%string)) ∧
  (date_le (replace_month_day today 1 1) (week_start today) →
   period_subset today items (Some "week"%string) (Some "year"%string)).
Proof.
  intros Hv. pose proof (valid_printable today Hv) as Hp.
  destruct (week_start_monday today Hv) as [Hwv%valid_printable _].
  destruct Hv as (Hy & Hm & Hd).
  assert (printable (replace_day today 1)) as Hpm.
  { unfold printable, replace_day. cbn. lia. }
  assert (printable (replace_month_day today 1 1)) as Hpy.
  { unfold printable, replace_month_day. cbn. lia. }
  assert (∀ p q sp sq,
    start_date today p = Some sp → start_date today q = Some sq →
    String.leb sq sp = true →
    period_subset today items (Some p) (Some q)) as Hsub.
  { intros p q sp sq Hsp Hsq Hle x.
    rewrite (filter_Some _ _ _ _ Hsp), (filter_Some _ _ _ _ Hsq).
    by apply filter_ge_mono. }
  split_and!.
  - eapply Hsub; [done..|]. by apply strftime_mono, sub_days_le.
  - eapply Hsub; [done..|]. apply strftime_mono, replace_day_le; [done..|lia].
  - eapply Hsub; [done..|]. apply strftime_mono, replace_month_day_le; [done..|lia].
  - apply filter_subset_all.
  - apply filter_subset_all.
  - intros Hle. eapply Hsub; [done..|]. by apply strftime_mono.
  - intros Hle. eapply Hsub; [done..|]. by apply strftime_mono.
Qed.

Lemma period_filter_monotone_witness :
  let today := mkDate 2024 5 15 in
  let items := [mkExpense (Qc_of_Z 20) "Groceries" "Market" "2024-05-14"] in
  valid_date today ∧ period_subset today items (Some "week"%string) (Some "month"%string).
Proof.
  cbv zeta.
  assert (valid_date (mkDate 2024 5 15)) as Hv by (unfold valid_date; cbn; lia).
  split; [exact Hv|].
  apply (period_filter_monotone (mkDate 2024 5 15)
           [mkExpense (Qc_of_Z 20) "Groceries" "Market" "2024-05-14"] Hv).
  vm_compute. discriminate.
Defined.

(** C2, as stated, fails: on Thursday 2024-05-02 the week starts on Monday
    2024-04-29, before the month does, so an expense of 2024-04-30 is in the
    week and not in the month. *)
Lemma week_not_within_month :
  let today := mkDate 2024 5 2 in
  let items := [mkExpense (Qc_of_Z 20) "Groceries" "Market" "2024-04-30"] in
  valid_date today ∧
  _filter_by_period today items (Some "week"%string) = items ∧
  _filter_by_period today items (Some "month"%string) = [] ∧
  ¬ period_chain today items.
Proof.
  cbv zeta. split_and!.
  - unfold valid_date; cbn; lia.
  - reflexivity.
  - reflexivity.
  - intros (_ & Hwm & _).
    specialize (Hwm (mkExpense (Qc_of_Z 20) "Groceries" "Market" "2024-04-30")).
    change (_filter_by_period (mkDate 2024 5 2)
              [mkExpense (Qc_of_Z 20) "Groceries" "Market" "2024-04-30"]
              (Some "month"%string)) with (@nil Expense) in Hwm.
    eapply not_elem_of_nil, Hwm. apply list_elem_of_here.
Qed.

(** C7. A period outside day, week, month and year (and [None] itself) leaves
    the sequence as it is; the function is total, there is no error case. *)
Theorem unknown_period_passthrough {A : Type} `{Item A}
    (now : date) (items : list A) (p : string) :
  p ∉ ["day"; "week"; "month"; "year"]%string →
  _filter_by_period now items (Some p) = items ∧ _filter_by_period now items None = items.
Proof.
  intros Hp. split; [|done]. unfold _filter_by_period, start_date. cbv zeta.
  repeat (destruct (decide _) as [->|_]; [exfalso; apply Hp; set_solver|]).
  done.
Qed.

(** The dashboard passes ["all"] for its "All Time" entry. *)
Lemma unknown_period_passthrough_witness :
  let items := [mkIncome (Qc_of_Z 3000) "Salary" "1999-12-31"] in
  ("all"%string ∉ ["day"; "week"; "month"; "year"]%string) ∧
  _filter_by_period (mkDate 2024 5 2) items (Some "all"%string) = items.
Proof.
  cbv zeta.
  assert ("all"%string ∉ ["day"; "week"; "month"; "year"]%string) as Hp.
  { intros Hin. repeat (apply elem_of_cons in Hin as [?|Hin]; [done|]).
    by apply elem_of_nil in Hin. }
  split; [exact Hp|].
  apply (unknown_period_passthrough (mkDate 2024 5 2)
           [mkIncome (Qc_of_Z 3000) "Salary" "1999-12-31"] "all" Hp).
Defined.

(** *** The advice *)



Example empty_ledger_advice :
  get_spending_advice (mkDate 2024 1 7) (new "budget_data.json" NoFile) = [good_msg].
Proof. vm_compute. reflexivity. Qed.

(** The scenario of the specification: income 1000 against expenses 1200 gives
    the warning, the cut-back hint and the savings-rate recommendation. *)
Example overspending_advice :
  get_spending_advice (mkDate 2024 1 7)
    (run (new "budget_data.json" NoFile)
       [record_income (mkDate 2024 1 5) (Qc_of_Z 1000) "Salary" None;
        record_expense (mkDate 2024 1 6) (Qc_of_Z 1200) "Housing" "Rent" None]) =
  [warning_msg; cut_back_msg "Housing"; savings_msg].
Proof. vm_compute. reflexivity. Qed.

(** Equal amounts: the category entered first stays first in the stable sort. *)
Example top_category_tie :
  get_spending_advice (mkDate 2024 1 7)
    (run (new "budget_data.json" NoFile)
       [record_expense (mkDate 2024 1 6) (Qc_of_Z 40) "Utilities" "Power" None;
        record_expense (mkDate 2024 1 6) (Qc_of_Z 40) "Groceries" "Market" None]) =
  [warning_msg; cut_back_msg "Utilities"].
Proof. vm_compute. reflexivity. Qed.











(** *** The recent transactions *)



(** The result holds at most [limit] rows. *)
Definition at_most (limit : Z) (rows : list Transaction) : Prop :=
  Z.of_nat (length rows) ≤ limit.

Lemma leb_false_flip (a b : string) : String.leb a b = false → String.leb b a = true.
Proof. intros Hf. destruct (String.leb_total a b) as [Ht|Ht]; congruence. Qed.





(** Three income records, for the examples below. *)
Definition three_incomes : manager :=
  run (new "budget_data.json" NoFile)
      [record_income (mkDate 2024 1 5) (Qc_of_Z 3000) "Salary" (Some "2024-01-05"%string);
       record_income (mkDate 2024 2 5) (Qc_of_Z 3000) "Salary" (Some "2024-02-05"%string);
       record_income (mkDate 2024 3 5) (Qc_of_Z 3000) "Salary" (Some "2024-03-05"%string)].

Example recent_incomes :
  get_transactions three_incomes "income" 2 =
    [mkTransaction "Income" "2024-03-05" (Qc_of_Z 3000) "Salary" "Salary";
     mkTransaction "Income" "2024-02-05" (Qc_of_Z 3000) "Salary" "Salary"] ∧
  at_most 2 (get_transactions three_incomes "income" 2).
Proof.
  split; [vm_compute; reflexivity|].
  unfold at_most, get_transactions. cbv zeta. by apply slice_to_length.
Qed.

(** A limit below zero is not a number of rows: each of the two slices reads
    it as an offset from the end of its list.  Three income records and limit
    -1 leave one row. *)
Lemma negative_limit_not_at_most :
  "income"%string ∈ ["all"; "income"; "expenses"]%string ∧
  get_transactions three_incomes "income" (-1) =
    [mkTransaction "Income" "2024-03-05" (Qc_of_Z 3000) "Salary" "Salary"] ∧
  ¬ at_most (-1) (get_transactions three_incomes "income" (-1)).
Proof.
  assert (get_transactions three_incomes "income" (-1) =
    [mkTransaction "Income" "2024-03-05" (Qc_of_Z 3000) "Salary" "Salary"]) as Hrows
    by (vm_compute; reflexivity).
  split_and!; [apply list_elem_of_further, list_elem_of_here|done|].
  rewrite Hrows. unfold at_most. cbn. lia.
Qed.

(** C10. A type filter outside all, income and expenses matches nothing: the
    result is empty for every ledger and every limit. *)
Theorem unknown_type_empty (self : manager) (transaction_type : string) (limit : Z) :
  transaction_type ∉ ["all"; "income"; "expenses"]%string →
  get_transactions self transaction_type limit = [].
Proof.
  intros Hty. unfold get_transactions. cbv zeta.
  rewrite !decide_False; [|intros [->| ->]; apply Hty; set_solver..].
  cbn [sorted_desc]. unfold slice_to. by destruct (0 <=? limit); rewrite take_nil.
Qed.

Lemma unknown_type_empty_witness :
  ("weekly"%string ∉ ["all"; "income"; "expenses"]%string) ∧
  get_transactions three_incomes "weekly" 10 = [].
Proof.
  assert ("weekly"%string ∉ ["all"; "income"; "expenses"]%string) as Hty.
  { intros Hin. repeat (apply elem_of_cons in Hin as [?|Hin]; [done|]).
    by apply elem_of_nil in Hin. }
  split; [exact Hty|]. exact (unknown_type_empty three_incomes "weekly" 10 Hty).
Defined.

(** ** Further properties of the ledger *)

(** The categories of the recorded expenses, in call order. *)
Definition expense_categories (calls : list call) : list string :=
  omap (λ c, match c with
             | record_expense _ _ category _ _ => Some category
             | _ => None
             end) calls.

Lemma run_cons (self : manager) (c : call) (calls : list call) :
  run self (c :: calls) = run (perform self c) calls.
Proof. reflexivity. Qed.

Lemma run_snoc (self : manager) (calls : list call) (c : call) :
  run self (calls ++ [c]) = perform (run self calls) c.
Proof. unfold run. by rewrite foldl_app. Qed.

Lemma perform_prefix (self : manager) (c : call) :
  income (data self) `prefix_of` income (data (perform self c)) ∧
  expenses (data self) `prefix_of` expenses (data (perform self c)).
Proof. destruct c; cbn; split; by (done || apply prefix_app_r). Qed.

(** X1. The ledger is append-only: whatever calls are made, the records held
    before are still there, unchanged and in the same order, at the head of
    both sequences, and each call adds exactly one record to its own
    sequence. *)
Theorem ledger_append_only (self : manager) (calls : list call) :
  income (data self) `prefix_of` income (data (run self calls)) ∧
  expenses (data self) `prefix_of` expenses (data (run self calls)) ∧
  length (income (data (run self calls))) =
    (length (income (data self)) + length (income_amounts calls))%nat ∧
  length (expenses (data (run self calls))) =
    (length (expenses (data self)) + length (expense_amounts calls))%nat.
Proof.
  split_and!.
  - revert self. induction calls as [|c calls IH]; intros self; [done|].
    rewrite run_cons. etrans; [apply (perform_prefix self c)|apply IH].
  - revert self. induction calls as [|c calls IH]; intros self; [done|].
    rewrite run_cons. etrans; [apply (perform_prefix self c)|apply IH].
  - rewrite <- (length_fmap i_amount), run_income_amounts.
    by rewrite length_app, length_fmap.
  - rewrite <- (length_fmap e_amount), run_expense_amounts.
    by rewrite length_app, length_fmap.
Qed.

Lemma perform_categories (self : manager) (c : call) :
  categories (perform self c) = categories self ∪ list_to_set (expense_categories [c]).
Proof.
  destruct c as [now amount source d|now amount category description d].
  - cbn. by rewrite (right_id_L ∅ (∪)).
  - unfold perform. rewrite add_expense_categories. cbn.
    by rewrite (right_id_L ∅ (∪)).
Qed.

Lemma run_categories (calls : list call) (self : manager) :
  categories (run self calls) = categories self ∪ list_to_set (expense_categories calls).
Proof.
  revert self. induction calls as [|c calls IH]; intros self.
  - cbn. by rewrite (right_id_L ∅ (∪)).
  - rewrite run_cons, IH, perform_categories. rewrite <- (assoc_L (∪)). f_equal.
    change (c :: calls) with ([c] ++ calls). unfold expense_categories.
    by rewrite omap_app, list_to_set_app_L.
Qed.

Lemma run_expense_categories (calls : list call) (self : manager) :
  e_category <$> expenses (data (run self calls)) =
  (e_category <$> expenses (data self)) ++ expense_categories calls.
Proof.
  revert self. induction calls as [|c calls IH]; intros self.
  - cbn. by rewrite app_nil_r.
  - rewrite run_cons, IH. destruct c; cbn; [done|].
    by rewrite fmap_app, <- app_assoc.
Qed.

(** X3. The category registry only grows: after any calls it is the registry
    held before together with the categories of the recorded expenses.  On a
    fresh ledger the ten built-in categories are therefore always present and
    the category of every expense in the ledger is registered. *)
Theorem categories_registry (self : manager) (calls : list call) (name : string) :
  categories (run self calls) = categories self ∪ list_to_set (expense_categories calls) ∧
  categories self ⊆ categories (run self calls) ∧
  default_categories ⊆ categories (run (new name NoFile) calls) ∧
  ∀ e, e ∈ expenses (data (run (new name NoFile) calls)) →
       e_category e ∈ categories (run (new name NoFile) calls).
Proof.
  split_and!.
  - apply run_categories.
  - rewrite run_categories. apply union_subseteq_l.
  - rewrite run_categories. apply union_subseteq_l.
  - intros e He. rewrite run_categories. apply elem_of_union_r, elem_of_list_to_set.
    assert (e_category e ∈ e_category <$> expenses (data (run (new name NoFile) calls)))
      as Hin by (by apply list_elem_of_fmap_2).
    by rewrite run_expense_categories in Hin.
Qed.

(** X4. The registry is not part of the file: a category registered by
    [add_expense] that is not one of the ten built-in ones is gone from the
    registry of a manager reopened on the file, although the expense recorded
    under it is still in the ledger. *)
Theorem custom_category_not_persisted (now : date) (self : manager) (amount : Qc)
    (category description : string) (d : option string) :
  category ∉ default_categories →
  let after := (add_expense now self amount category description d).1 in
  let reopened := new (filename after) (file after) in
  category ∈ categories after ∧
  (category ∉ categories reopened) ∧
  ∃ e, e ∈ expenses (data reopened) ∧ e_category e = category ∧ e_amount e = amount.
Proof.
  intros Hcustom. cbv zeta. split_and!.
  - rewrite add_expense_categories. apply elem_of_union_r. by apply elem_of_singleton.
  - done.
  - eexists. split; [cbn; apply elem_of_app; right; apply list_elem_of_here|done].
Qed.

Lemma pets_not_default : "Pets"%string ∉ default_categories.
Proof. unfold default_categories. by vm_compute. Qed.

Lemma custom_category_not_persisted_witness :
  ("Pets"%string ∉ default_categories) ∧
  "Pets"%string ∉ categories
     (new "budget_data.json"
        (file (add_expense (mkDate 2024 1 6) (new "budget_data.json" NoFile)
                 (Qc_of_Z 35) "Pets" "Vet" None).1)).
Proof.
  split; [exact pets_not_default|].
  exact (proj1 (proj2 (custom_category_not_persisted (mkDate 2024 1 6)
           (new "budget_data.json" NoFile) (Qc_of_Z 35) "Pets" "Vet" None
           pets_not_default))).
Defined.

(** *** Period filters and the calendar *)

Lemma period_starts_printable (today : date) :
  valid_date today →
  printable today ∧ printable (week_start today) ∧
  printable (replace_day today 1) ∧ printable (replace_month_day today 1 1).
Proof.
  intros Hv. pose proof (valid_printable today Hv) as Hp.
  destruct (week_start_monday today Hv) as [Hw%valid_printable _].
  destruct Hp as (Hy & Hm & Hd).
  split_and!; [done|done|..]; unfold printable; cbn; lia.
Qed.

(** On well-formed dates the comparison of the texts is the comparison of
    the dates. *)
Lemma str_ge_strftime (d s : date) :
  printable d → printable s →
  str_ge (strftime d) (strftime s) = true ↔ date_le s d.
Proof.
  intros Hd Hs. unfold str_ge, date_le. by rewrite leb_Gt, strftime_compare.
Qed.

(** Every period starts today or earlier. *)
Lemma start_date_le_today (today : date) (p start : string) :
  valid_date today → start_date today p = Some start →
  str_ge (strftime today) start = true.
Proof.
  intros Hv Hs. destruct (period_starts_printable today Hv) as (Hp & Hw & Hm & Hy).
  destruct Hv as (_ & Hmon & Hday). unfold start_date in Hs.
  repeat (destruct (decide _) as [_|_] in Hs; [injection Hs as <-|]); [| | | |done];
    apply str_ge_strftime; try done.
  - unfold date_le. by rewrite date_compare_refl.
  - apply sub_days_le.
  - apply replace_day_le. lia.
  - unfold date_le, date_compare, replace_month_day. cbn [year month day].
    rewrite Z.compare_refl.
    destruct (Z.compare_spec 1 (month today)); try done; [|lia].
    apply Z.compare_ngt_iff. lia.
Qed.

Lemma elem_of_filter_by_period {A : Type} `{Item A}
    (today : date) (items : list A) (p start : string) (x : A) :
  start_date today p = Some start →
  x ∈ _filter_by_period today items (Some p) ↔
  x ∈ items ∧ str_ge (item_date x) start = true.
Proof. intros Hs. rewrite (filter_Some _ _ _ _ Hs). apply elem_of_filter_ge. Qed.

(** X5. A record entered without a date is stamped with the date of the clock,
    and at that same clock it passes the filter of every period: it counts in
    the summary of the day, the week, the month and the year (and of any other
    period value). *)
Theorem undated_record_in_every_period (now : date) (self : manager) (amount : Qc)
    (source category description : string) (period : option string) :
  valid_date now →
  mkIncome amount source (strftime now) ∈
    _filter_by_period now
      (income (data (add_income now self amount source None).1)) period ∧
  mkExpense amount category description (strftime now) ∈
    _filter_by_period now
      (expenses (data (add_expense now self amount category description None).1)) period.
Proof.
  intros Hv.
  assert (∀ (A : Type) (I : Item A) (items : list A) (x : A),
    item_date x = strftime now → x ∈ items →
    x ∈ _filter_by_period now items period) as Hkeep.
  { intros A I items x Hdate Hin. destruct period as [p|]; [|done].
    destruct (start_date now p) as [start|] eqn:Hs.
    - apply (elem_of_filter_by_period _ _ _ _ _ Hs). split; [done|].
      rewrite Hdate. by eapply start_date_le_today.
    - unfold _filter_by_period. cbv zeta. by rewrite Hs. }
  split; apply Hkeep; try done; cbn; apply elem_of_app; right; apply list_elem_of_here.
Qed.

Lemma valid_2024_05_02 : valid_date (mkDate 2024 5 2).
Proof. unfold valid_date. cbn. lia. Qed.

Lemma undated_record_in_every_period_witness :
  valid_date (mkDate 2024 5 2) ∧
  mkIncome (Qc_of_Z 3000) "Salary" "2024-05-02" ∈
    _filter_by_period (mkDate 2024 5 2)
      (income (data (add_income (mkDate 2024 5 2) (new "budget_data.json" NoFile)
                       (Qc_of_Z 3000) "Salary" None).1))
      (Some "week"%string).
Proof.
  split; [exact valid_2024_05_02|].
  exact (proj1 (undated_record_in_every_period (mkDate 2024 5 2)
                  (new "budget_data.json" NoFile) (Qc_of_Z 3000)
                  "Salary" "Groceries" "Market" (Some "week"%string) valid_2024_05_02)).
Defined.

(** X6. For a record whose date text is a well-formed calendar date, the
    period filters decide chronologically: the record is kept for the day iff
    its date is not before today, for the week iff not before the Monday of
    this week, for the month iff not before the first of this month, for the
    year iff not before January 1 of this year. *)
Theorem period_filter_chronological {A : Type} `{Item A}
    (today d : date) (items : list A) (x : A) :
  valid_date today → valid_date d → item_date x = strftime d → x ∈ items →
  (x ∈ _filter_by_period today items (Some "day"%string) ↔ date_le today d) ∧
  (x ∈ _filter_by_period today items (Some "week"%string) ↔
     date_le (week_start today) d) ∧
  (x ∈ _filter_by_period today items (Some "month"%string) ↔
     date_le (replace_day today 1) d) ∧
  (x ∈ _filter_by_period today items (Some "year"%string) ↔
     date_le (replace_month_day today 1 1) d).
Proof.
  intros Hv Hd%valid_printable Hdate Hin.
  destruct (period_starts_printable today Hv) as (Hp & Hw & Hm & Hy).
  split_and!;
    (rewrite elem_of_filter_by_period by reflexivity);
    rewrite Hdate, str_ge_strftime by done; tauto.
Qed.

Lemma period_filter_chronological_witness :
  let x := mkExpense (Qc_of_Z 20) "Groceries" "Market" "2024-04-30" in
  valid_date (mkDate 2024 5 2) ∧ valid_date (mkDate 2024 4 30) ∧
  (x ∈ _filter_by_period (mkDate 2024 5 2) [x] (Some "month"%string) ↔
     date_le (replace_day (mkDate 2024 5 2) 1) (mkDate 2024 4 30)).
Proof.
  cbv zeta.
  assert (valid_date (mkDate 2024 4 30)) as Hd by (unfold valid_date; cbn; lia).
  split_and!; [exact valid_2024_05_02|exact Hd|].
  refine (proj1 (proj2 (proj2 (period_filter_chronological (mkDate 2024 5 2)
            (mkDate 2024 4 30) [mkExpense (Qc_of_Z 20) "Groceries" "Market" "2024-04-30"]
            (mkExpense (Qc_of_Z 20) "Groceries" "Market" "2024-04-30")
            valid_2024_05_02 Hd _ _)))).
  - reflexivity.
  - apply list_elem_of_here.
Defined.

(** X7. The week period starts on a Monday: the start date the filter uses
    for [week] is the text of a valid date that is a Monday, not after today
    and at most six days before it. *)
Theorem week_period_starts_monday (today : date) :
  valid_date today →
  ∃ monday,
    start_date today "week" = Some (strftime monday) ∧
    valid_date monday ∧ weekday monday = 0 ∧
    toordinal today - 6 ≤ toordinal monday ≤ toordinal today.
Proof.
  intros Hv. exists (week_start today).
  destruct (week_start_monday today Hv) as [Hvw Hmon].
  pose proof (toordinal_pos today Hv) as Hpos.
  assert (0 ≤ weekday today < 7) as Hw by (unfold weekday; apply Z.mod_pos_bound; lia).
  assert (weekday today < toordinal today) as Hlt.
  { unfold weekday. Z.div_mod_to_equations. lia. }
  destruct (toordinal_sub_days (Z.to_nat (weekday today)) today Hv) as [_ Hord]; [lia|].
  fold (week_start today) in Hord. split_and!; [done|done|done|lia|lia].
Qed.

Lemma week_period_starts_monday_witness :
  valid_date (mkDate 2024 5 2) ∧
  ∃ monday,
    start_date (mkDate 2024 5 2) "week" = Some (strftime monday) ∧
    valid_date monday ∧ weekday monday = 0 ∧
    toordinal (mkDate 2024 5 2) - 6 ≤ toordinal monday ≤ toordinal (mkDate 2024 5 2).
Proof.
  split; [exact valid_2024_05_02|].
  exact (week_period_starts_monday (mkDate 2024 5 2) valid_2024_05_02).
Defined.

Lemma filter_sublist {A : Type} (f : A → bool) (l : list A) :
  List.filter f l `sublist_of` l.
Proof.
  induction l as [|x l IH]; cbn [List.filter]; [done|].
  destruct (f x); by constructor.
Qed.

Lemma filter_idem {A : Type} (f : A → bool) (l : list A) :
  List.filter f (List.filter f l) = List.filter f l.
Proof.
  induction l as [|x l IH]; cbn [List.filter]; [done|].
  destruct (f x) eqn:Hf; cbn [List.filter]; [|done]. by rewrite Hf, IH.
Qed.

(** X8. Filtering by a period selects: the result is a subsequence of the
    input (same records, same order, nothing added), filtering the result again
    by the same period changes nothing, and filtering a concatenation is
    filtering its parts. *)
Theorem filter_by_period_selects {A : Type} `{Item A}
    (now : date) (items items' : list A) (period : option string) :
  _filter_by_period now items period `sublist_of` items ∧
  _filter_by_period now (_filter_by_period now items period) period =
    _filter_by_period now items period ∧
  _filter_by_period now (items ++ items') period =
    _filter_by_period now items period ++ _filter_by_period now items' period.
Proof.
  unfold _filter_by_period. destruct period as [p|]; [|done]. cbv zeta.
  destruct (start_date now p) as [start|]; [|done].
  split_and!; [apply filter_sublist|apply filter_idem|apply List.filter_app].
Qed.



(** What each rule contributes to the advice. *)
Definition rule1_advice (s : Summary) : list string :=
  if bool_decide (balance s < 0)%Qc then
    warning_msg ::
    match sorted_desc Qc_leb snd (expenses_by_category s) with
    | (top_category, _) :: _ => [cut_back_msg top_category]
    | [] => []
    end
  else [].

Definition rule2_advice (s : Summary) : list string :=
  if bool_decide (savings_of s < total_income s * Q2Qc (1 # 10))%Qc
  then [savings_msg] else [].









Lemma messages_distinct (top : string) :
  warning_msg ≠ savings_msg ∧ warning_msg ≠ good_msg ∧ savings_msg ≠ good_msg ∧
  warning_msg ≠ cut_back_msg top ∧ good_msg ≠ cut_back_msg top ∧
  savings_msg ≠ cut_back_msg top.
Proof. unfold warning_msg, savings_msg, good_msg, cut_back_msg. cbn. split_and!; discriminate. Qed.


(** *** The listing of recent transactions *)

#[local] Instance desc_date_trans {A : Type} (key : A → string) :
  Transitive (desc String.leb key).
Proof. intros a b c Hab Hbc. unfold desc in *. by apply (leb_trans _ (key b)). Qed.

(** Sorting and slicing rows that come sorted and are at most [limit] many
    gives the rows back. *)
Lemma resort_rows {A : Type} (key : A → string) (row : A → Transaction)
    (limit : Z) (items : list A) :
  (∀ a, t_date (row a) = key a) → 0 ≤ limit →
  slice_to limit (sorted_desc String.leb t_date
                    (row <$> slice_to limit (sorted_desc String.leb key items))) =
  row <$> take (Z.to_nat limit) (sorted_desc String.leb key items).
Proof.
  intros Hkey Hl. rewrite sorted_desc_fixed.
  - rewrite slice_to_all; [by rewrite slice_to_nonneg|].
    rewrite length_fmap. by apply slice_to_length.
  - apply (fmap_sorted _ key); [done|].
    apply slice_to_sorted, sorted_desc_sorted, leb_false_flip.
Qed.

(** X12. With the filter [income] (or [expenses]) and a limit that is not
    negative, the listing is exactly the rows of the first [limit] records of
    the ledger's income (expense) sequence sorted by date, newest first, records
    of one date in ledger order; no record left out is newer than a record
    listed. *)
Theorem single_type_listing (self : manager) (limit : Z) :
  0 ≤ limit →
  let incomes := sorted_desc String.leb i_date (income (data self)) in
  let exps := sorted_desc String.leb e_date (expenses (data self)) in
  get_transactions self "income" limit = income_row <$> take (Z.to_nat limit) incomes ∧
  get_transactions self "expenses" limit = expense_row <$> take (Z.to_nat limit) exps ∧
  incomes ≡ₚ income (data self) ∧ exps ≡ₚ expenses (data self) ∧
  (∀ shown hidden,
     shown ∈ take (Z.to_nat limit) incomes → hidden ∈ drop (Z.to_nat limit) incomes →
     String.leb (i_date hidden) (i_date shown) = true) ∧
  (∀ shown hidden,
     shown ∈ take (Z.to_nat limit) exps → hidden ∈ drop (Z.to_nat limit) exps →
     String.leb (e_date hidden) (e_date shown) = true).
Proof.
  intros Hl. cbv zeta. split_and!.
  - unfold get_transactions. cbv zeta.
    destruct (decide ("income"%string = "income"%string ∨ _)) as [_|Hn];
      [|exfalso; apply Hn; by left].
    destruct (decide ("income"%string = "expenses"%string ∨ _)) as [[?|?]|_]; [done..|].
    cbn [app]. by apply resort_rows.
  - unfold get_transactions. cbv zeta.
    destruct (decide ("expenses"%string = "income"%string ∨ _)) as [[?|?]|_]; [done..|].
    destruct (decide ("expenses"%string = "expenses"%string ∨ _)) as [_|Hn];
      [|exfalso; apply Hn; by left].
    cbn [app]. by apply resort_rows.
  - apply sorted_desc_perm.
  - apply sorted_desc_perm.
  - intros shown hidden Hs Hh.
    eapply (sorted_take_drop String.leb i_date); [apply _| |done..].
    apply sorted_desc_sorted, leb_false_flip.
  - intros shown hidden Hs Hh.
    eapply (sorted_take_drop String.leb e_date); [apply _| |done..].
    apply sorted_desc_sorted, leb_false_flip.
Qed.

Lemma single_type_listing_witness :
  0 ≤ 2 ∧
  get_transactions three_incomes "income" 2 =
  income_row <$> take (Z.to_nat 2)
                   (sorted_desc String.leb i_date (income (data three_incomes))).
Proof.
  assert (0 ≤ 2) as Hl by lia. split; [exact Hl|].
  exact (proj1 (single_type_listing three_incomes 2 Hl)).
Defined.

(** X13. With a limit that is not negative the listing has as many rows as
    the limit allows: the smaller of the limit and the number of records of the
    kinds selected. *)
Theorem listing_length (self : manager) (limit : Z) :
  0 ≤ limit →
  length (get_transactions self "all" limit) =
    Nat.min (Z.to_nat limit)
            (length (income (data self)) + length (expenses (data self))) ∧
  length (get_transactions self "income" limit) =
    Nat.min (Z.to_nat limit) (length (income (data self))) ∧
  length (get_transactions self "expenses" limit) =
    Nat.min (Z.to_nat limit) (length (expenses (data self))).
Proof.
  intros Hl. unfold get_transactions. cbv zeta. split_and!.
  - rewrite !decide_True by (by right). cbn [app].
    rewrite !slice_to_nonneg by done.
    rewrite length_take, sorted_desc_length, length_app, !length_fmap, !length_take.
    rewrite !sorted_desc_length. lia.
  - destruct (decide ("income"%string = "income"%string ∨ _)) as [_|Hn];
      [|exfalso; apply Hn; by left].
    destruct (decide ("income"%string = "expenses"%string ∨ _)) as [[?|?]|_]; [done..|].
    cbn [app]. rewrite !slice_to_nonneg by done.
    rewrite length_take, sorted_desc_length, !length_fmap, !length_take.
    rewrite !sorted_desc_length. lia.
  - destruct (decide ("expenses"%string = "income"%string ∨ _)) as [[?|?]|_]; [done..|].
    destruct (decide ("expenses"%string = "expenses"%string ∨ _)) as [_|Hn];
      [|exfalso; apply Hn; by left].
    cbn [app]. rewrite !slice_to_nonneg by done.
    rewrite length_take, sorted_desc_length, !length_fmap, !length_take.
    rewrite !sorted_desc_length. lia.
Qed.

Lemma listing_length_witness :
  0 ≤ 2 ∧
  length (get_transactions three_incomes "all" 2) =
    Nat.min (Z.to_nat 2)
            (length (income (data three_incomes)) + length (expenses (data three_incomes))).
Proof.
  assert (0 ≤ 2) as Hl by lia. split; [exact Hl|].
  exact (proj1 (listing_length three_incomes 2 Hl)).
Defined.

(** *** The categories of a summary *)

Lemma fold_iadd_keys (exps : list Expense) (d : pydict) (k : string) :
  k ∈ dict_keys
        (foldl (λ d expense, dict_iadd d (e_category expense) (e_amount expense)) d exps) ↔
  k ∈ dict_keys d ∨ ∃ e, e ∈ exps ∧ e_category e = k.
Proof.
  revert d. induction exps as [|e exps IH]; intros d; cbn [foldl].
  - split; [by left|]. intros [?|(e & He & _)]; [done|]. by apply elem_of_nil in He.
  - rewrite IH, dict_iadd_keys. split.
    + intros [Hk|(e' & He' & Hc)].
      * destruct (decide (e_category e ∈ dict_keys d)); [by left|].
        apply elem_of_app in Hk as [Hk|Hk%list_elem_of_singleton]; [by left|].
        right. exists e. split; [apply list_elem_of_here|done].
      * right. exists e'. split; [by apply list_elem_of_further|done].
    + intros [Hk|(e' & He' & Hc)].
      * left. destruct (decide (e_category e ∈ dict_keys d)); [done|].
        apply elem_of_app. by left.
      * apply elem_of_cons in He' as [->|He'].
        -- left. destruct (decide (e_category e ∈ dict_keys d)) as [Hin|Hnin].
           ++ by rewrite <- Hc.
           ++ apply elem_of_app. right. by apply list_elem_of_singleton.
        -- right. by exists e'.
Qed.

Lemma dict_get_None (d : pydict) (k : string) : k ∉ dict_keys d → dict_get d k = None.
Proof.
  unfold dict_keys. induction d as [|[k' v] d IH]; intros Hk; [done|].
  rewrite fmap_cons in Hk. apply not_elem_of_cons in Hk as [Hne Hk]. cbn [dict_get].
  rewrite decide_False by (by intros ->). by apply IH.
Qed.

(** X23. The categories listed in a summary are exactly the categories that
    have an expense in the period: a registered category with no such expense
    is left out (not listed with 0), and looking one up gives nothing. *)
Theorem summary_categories (now : date) (self : manager) (period : option string)
    (k : string) :
  let s := get_summary now self period in
  let exps := _filter_by_period now (expenses (data self)) period in
  (k ∈ dict_keys (expenses_by_category s) ↔ ∃ e, e ∈ exps ∧ e_category e = k) ∧
  ((∀ e, e ∈ exps → e_category e ≠ k) → dict_get (expenses_by_category s) k = None).
Proof.
  cbv zeta. cbn [get_summary expenses_by_category]. unfold by_category.
  assert (k ∈ dict_keys
            (foldl (λ d expense, dict_iadd d (e_category expense) (e_amount expense)) []
               (_filter_by_period now (expenses (data self)) period)) ↔
          ∃ e, e ∈ _filter_by_period now (expenses (data self)) period ∧ e_category e = k)
    as Hiff.
  { rewrite fold_iadd_keys. split; [|by right].
    intros [Hk|?]; [|done]. by apply elem_of_nil in Hk. }
  split; [done|]. intros Hnone. apply dict_get_None. rewrite Hiff.
  intros (e & He & Hc). by apply (Hnone e).
Qed.

End BudgetManager.

(** ** [script.py]: class [BudgetManager], amounts in binary64 *)

Module BudgetManager64.
Import StrOrder Calendar PyFloat.
Import PrimFloat.

#[local] Set Warnings "-inexact-float".

(** The two kinds of ledger record; [float(amount)] is stored. *)
Record Income := mkIncome {
  i_amount : float;
  i_source : string;
  i_date : string
}.

Record Expense := mkExpense {
  e_amount : float;
  e_category : string;
  e_description : string;
  e_date : string
}.

(** [self.data]: [{"income": [...], "expenses": [...]}]. *)
Record Data := mkData {
  income : list Income;
  expenses : list Expense
}.

(** The state of a manager during a session.  The file is rewritten by every
    call and read by [__init__] only, so it is left out here. *)
Record manager := mkManager {
  data : Data;
  categories : gset string
}.

(** [__init__], where [loaded] is what [_load_data] returned. *)
Definition new (loaded : Data) : manager :=
  {| data := loaded; categories := BudgetManager.default_categories |}.

(** A manager that found no file. *)
Definition fresh : manager := new (mkData [] []).

Definition add_income (now : date) (self : manager)
    (amount : float) (source : string) (d : option string) : manager * bool :=
  let d := BudgetManager.date_or_today now d in
  let item := {| i_amount := amount; i_source := source; i_date := d |} in
  ({| data := mkData (income (data self) ++ [item]) (expenses (data self));
      categories := categories self |}, true).

Definition add_expense (now : date) (self : manager)
    (amount : float) (category description : string) (d : option string) : manager * bool :=
  let d := BudgetManager.date_or_today now d in
  let cats := if decide (category ∉ categories self)
              then categories self ∪ {[category]} else categories self in
  let item := {| e_amount := amount; e_category := category;
                 e_description := description; e_date := d |} in
  ({| data := mkData (income (data self)) (expenses (data self) ++ [item]);
      categories := cats |}, true).

(** [_filter_by_period], with the [if]/[elif] chain of the period as
    [BudgetManager.start_date]; [date_of] reads [item["date"]]. *)
Definition _filter_by_period {A : Type} (date_of : A → string)
    (now : date) (items : list A) (period : option string) : list A :=
  match period with
  | None => items
  | Some p =>
      let today := now in
      match BudgetManager.start_date today p with
      | Some start => List.filter (λ item, str_ge (date_of item) start) items
      | None => items
      end
  end.

Record Summary := mkSummary {
  total_income : float;
  total_expenses : float;
  balance : float;
  expenses_by_category : pydict
}.

(** The loop [expenses_by_category[expense["category"]] += expense["amount"]]. *)
Definition by_category (exps : list Expense) : pydict :=
  foldl (λ d expense, dict_iadd d (e_category expense) (e_amount expense)) [] exps.

Definition get_summary (now : date) (self : manager) (period : option string) : Summary :=
  let inc := _filter_by_period i_date now (income (data self)) period in
  let exps := _filter_by_period e_date now (expenses (data self)) period in
  let total_income := py_sum (i_amount <$> inc) in
  let total_expenses := py_sum (e_amount <$> exps) in
  let balance := (total_income - total_expenses)%float in
  {| total_income := total_income; total_expenses := total_expenses;
     balance := balance; expenses_by_category := by_category exps |}.

(** [summary["expenses_by_category"].get("Savings", 0)]. *)
Definition savings_of (summary : Summary) : float :=
  default 0%float (dict_get (expenses_by_category summary) "Savings").

(** [get_spending_advice], with the messages of [BudgetManager].  The two
    tests are the code's own: [balance < 0] and
    [savings < total_income * 0.1], both in binary64. *)
Definition get_spending_advice (now : date) (self : manager) : list string :=
  let summary := get_summary now self None in
  let advice := [] in
  let advice :=
    if (balance summary <? 0)%float then
      let advice := advice ++ [BudgetManager.warning_msg] in
      let cats := Py.sorted_desc not_below snd (expenses_by_category summary) in
      match cats with
      | (top_category, _) :: _ => advice ++ [BudgetManager.cut_back_msg top_category]
      | [] => advice
      end
    else advice in
  let savings := savings_of summary in
  let advice :=
    if (savings <? total_income summary * 0.1)%float
    then advice ++ [BudgetManager.savings_msg] else advice in
  match advice with
  | [] => [BudgetManager.good_msg]
  | _ => advice
  end.

(** A call on the ledger, with the reading of the clock at the time of the call. *)
Inductive call :=
  | record_income (now : date) (amount : float) (source : string) (d : option string)
  | record_expense (now : date) (amount : float) (category description : string)
      (d : option string).

Definition perform (self : manager) (c : call) : manager :=
  match c with
  | record_income now amount source d => (add_income now self amount source d).1
  | record_expense now amount category description d =>
      (add_expense now self amount category description d).1
  end.

Definition run (self : manager) (calls : list call) : manager := foldl perform self calls.

(** The amounts the calls recorded, by kind, in the order of the calls. *)
Definition income_amounts (calls : list call) : list float :=
  omap (λ c, match c with record_income _ amount _ _ => Some amount | _ => None end) calls.
Definition expense_amounts (calls : list call) : list float :=
  omap (λ c, match c with record_expense _ amount _ _ _ => Some amount | _ => None end) calls.

(** The expenses of one category, in ledger order. *)
Definition in_category (k : string) (exps : list Expense) : list Expense :=
  List.filter (λ e, bool_decide (e_category e = k)) exps.

(** *** The ledger after a sequence of calls *)










(** *** The category breakdown *)
















(** *** The advice *)

(** What each rule contributes to the advice. *)
Definition rule1_advice (s : Summary) : list string :=
  if (balance s <? 0)%float then
    BudgetManager.warning_msg ::
    match Py.sorted_desc not_below snd (expenses_by_category s) with
    | (top_category, _) :: _ => [BudgetManager.cut_back_msg top_category]
    | [] => []
    end
  else [].

Definition rule2_advice (s : Summary) : list string :=
  if (savings_of s <? total_income s * 0.1)%float
  then [BudgetManager.savings_msg] else [].

Lemma advice_by_rules64 (now : date) (self : manager) :
  get_spending_advice now self =
  match rule1_advice (get_summary now self None) ++
        rule2_advice (get_summary now self None) with
  | [] => [BudgetManager.good_msg]
  | advice => advice
  end.
Proof.
  unfold get_spending_advice, rule1_advice, rule2_advice. cbv zeta.
  destruct (balance _ <? 0)%float;
    [destruct (Py.sorted_desc not_below snd _) as [|[top v] rest]|];
    by destruct (savings_of _ <? _)%float.
Qed.

(** X11. The advice is never empty and has at most three lines.  The line
    "Your budget looks good!" is given exactly when neither test of the code
    succeeds ([balance < 0] and [savings < total_income * 0.1], both as
    binary64 evaluates them), and then it is the only line. *)
Theorem advice_shape (now : date) (self : manager) :
  let s := get_summary now self None in
  let advice := get_spending_advice now self in
  advice ≠ [] ∧ (length advice ≤ 3)%nat ∧
  (advice = [BudgetManager.good_msg] ↔
     (balance s <? 0)%float = false ∧
     (savings_of s <? total_income s * 0.1)%float = false) ∧
  (BudgetManager.good_msg ∈ advice → advice = [BudgetManager.good_msg]).
Proof.
  cbv zeta. rewrite advice_by_rules64. unfold rule1_advice, rule2_advice.
  set (s := get_summary now self None).
  destruct (balance s <? 0)%float;
    [destruct (Py.sorted_desc not_below snd (expenses_by_category s)) as [|[top v] rest]|];
    destruct (savings_of s <? total_income s * 0.1)%float; cbn [app length];
    (split_and!; [done|lia| |]);
    try (split; [intros [= Hm]|intros [? ?]; done]);
    try (split; [done|by intros _]);
    try (by destruct (BudgetManager.messages_distinct "") as (? & ? & ? & _); congruence);
    rewrite ?elem_of_cons, ?elem_of_nil; intros Hin; destruct_or?; try done;
    exfalso;
    first [ by destruct (BudgetManager.messages_distinct "") as (? & ? & ? & _); congruence
          | by destruct (BudgetManager.messages_distinct top) as (_ & _ & _ & _ & ? & _);
               congruence ].
Qed.


(** An income of 160.6 with 16.06 put aside: the product [160.6 * 0.1] rounds
    to 16.06 and the recommendation is not given. *)
Example a_tenth_saved :
  get_spending_advice (mkDate 2024 1 6)
    (run fresh
       [ record_income (mkDate 2024 1 5) 160.6 "Salary" (Some "2024-01-05"%string);
         record_expense (mkDate 2024 1 5) 16.06 "Savings" "Account"
           (Some "2024-01-05"%string) ]) =
  [BudgetManager.good_msg].
Proof. vm_compute. reflexivity. Qed.

End BudgetManager64.

(** ** [script2.py]: the required monthly investment of class [BudgetPlanner],
    in exact arithmetic *)

Module BudgetPlanner.
Import Py.

Local Open Scope Qc_scope.

Definition calculate_required_monthly_investment
    (target_amount : Qc) (years : Z) (annual_rate : Qc) : option Qc :=
  let n := 12%Z in
  (* the divisor is the literal 12: this division cannot fail *)
  let monthly_rate := annual_rate / Qc_of_Z 12 in
  let total_periods := (years * n)%Z in
  if decide (monthly_rate = 0) then
    py_div target_amount (Qc_of_Z (years * 12))
  else
    growth ← py_pow (1 + monthly_rate) total_periods;
    factor ← py_div (growth - 1) monthly_rate;
    py_div target_amount factor.

(** The future value of an ordinary annuity: [n] payments of [pmt], one at the
    end of each period, at rate [r] per period; a linear sum when [r] is 0. *)
Definition annuity_future_value (pmt r : Qc) (n : nat) : Qc :=
  if decide (r = 0) then pmt * Qc_of_Z (Z.of_nat n)
  else pmt * (((1 + r) ^ n - 1) / r).

(** The same value, period by period: the balance earns interest, then the
    payment is added. *)
Fixpoint annuity_balance (pmt r : Qc) (n : nat) : Qc :=
  match n with
  | O => 0
  | S k => annuity_balance pmt r k * (1 + r) + pmt
  end.

(** Projecting the payment returned for a goal forward reaches the goal. *)
Definition round_trip (target_amount : Qc) (years : Z) (annual_rate : Qc) : Prop :=
  ∃ pmt,
    calculate_required_monthly_investment target_amount years annual_rate = Some pmt ∧
    annuity_future_value pmt (annual_rate / Qc_of_Z 12) (Z.to_nat (years * 12)) =
      target_amount.

(** The call returns a value: no [ZeroDivisionError]. *)
Definition no_division_by_zero (target_amount : Qc) (years : Z) (annual_rate : Qc) : Prop :=
  is_Some (calculate_required_monthly_investment target_amount years annual_rate).

(** *** Powers of rationals *)

Lemma Qc_square_nonneg (x : Qc) : 0 ≤ x * x.
Proof.
  destruct (Qclt_le_dec x 0) as [Hneg|Hpos].
  - replace (x * x) with (- x * - x) by ring.
    apply Qclt_le_weak, Qcopp_le_compat in Hneg.
    replace (- 0) with 0 in Hneg by ring. by apply Qcmult_nonneg_nonneg.
  - by apply Qcmult_nonneg_nonneg.
Qed.

Lemma Qcpower_le_1 (y : Qc) (k : nat) : 0 ≤ y → y ≤ 1 → y ^ k ≤ 1.
Proof.
  intros H0 H1. induction k as [|k IH]; cbn [Qcpower]; [apply Qcle_refl|].
  apply Qcle_trans with (y * 1); [by apply Qcmult_le_mono_nonneg_l|].
  by rewrite Qcmult_1_r.
Qed.

Lemma Qcpower_lt_1 (y : Qc) (k : nat) : 0 ≤ y → y < 1 → y ^ S k < 1.
Proof.
  intros H0 H1. cbn [Qcpower].
  apply Qcle_lt_trans with (y * 1); [|by rewrite Qcmult_1_r].
  apply Qcmult_le_mono_nonneg_l; [done|]. by apply Qcpower_le_1, Qclt_le_weak.
Qed.

Lemma Qcpower_ge_1 (y : Qc) (k : nat) : 1 ≤ y → 1 ≤ y ^ k.
Proof.
  intros H1. assert (0 ≤ y) as H0 by (by apply Qcle_trans with 1).
  induction k as [|k IH]; cbn [Qcpower]; [apply Qcle_refl|].
  apply Qcle_trans with (y * 1); [by rewrite Qcmult_1_r|].
  by apply Qcmult_le_mono_nonneg_l.
Qed.

Lemma Qcpower_gt_1 (y : Qc) (k : nat) : 1 < y → 1 < y ^ S k.
Proof.
  intros H1. assert (0 ≤ y) as H0 by (by apply Qclt_le_weak, Qclt_trans with 1).
  cbn [Qcpower]. apply Qclt_le_trans with (y * 1); [by rewrite Qcmult_1_r|].
  apply Qcmult_le_mono_nonneg_l; [done|]. by apply Qcpower_ge_1, Qclt_le_weak.
Qed.

Lemma Qcpower_nonneg_eq_1 (y : Qc) (k : nat) : 0 ≤ y → y ^ S k = 1 → y = 1.
Proof.
  intros H0 Hp. destruct (Qc_dec y 1) as [[Hlt|Hgt]|Heq]; [| |done].
  - apply (Qcpower_lt_1 y k H0) in Hlt. rewrite Hp in Hlt.
    by apply Qclt_not_eq in Hlt.
  - apply (Qcpower_gt_1 y k) in Hgt. rewrite Hp in Hgt.
    by apply Qclt_not_eq in Hgt.
Qed.

Lemma Qcpower_square (x : Qc) (n : nat) : (x * x) ^ n = x ^ n * x ^ n.
Proof. induction n as [|n IH]; cbn [Qcpower]; [ring|]. rewrite IH. ring. Qed.

(** A positive power is 1 only for the bases 1 and -1. *)
Lemma Qcpower_eq_1 (x : Qc) (k : nat) : x ^ S k = 1 → x = 1 ∨ x = - 1.
Proof.
  intros Hp.
  assert (x * x = 1) as Hsq.
  { apply (Qcpower_nonneg_eq_1 _ k); [apply Qc_square_nonneg|].
    rewrite Qcpower_square, Hp. ring. }
  assert ((x - 1) * (x + 1) = 0) as [H1|H1]%Qcmult_integral.
  { replace ((x - 1) * (x + 1)) with (x * x - 1) by ring. rewrite Hsq. ring. }
  - left. rewrite <- (Qcplus_0_r 1), <- H1. ring.
  - right. rewrite <- (Qcplus_0_l (- 1)), <- H1. ring.
Qed.

Lemma Qcpower_neg1_even (n : nat) : (- 1) ^ (2 * n) = 1.
Proof.
  induction n as [|n IH]; [done|].
  replace (2 * S n)%nat with (S (S (2 * n))) by lia. cbn [Qcpower]. rewrite IH. ring.
Qed.

Lemma Qc_of_Z_nonzero (z : Z) : z ≠ 0%Z → Qc_of_Z z ≠ 0.
Proof. intros Hz Hq. apply Hz, Z2Qc_inj. by rewrite Hq, Z2Qc_inj_0. Qed.

Lemma Qc_twelve_nonzero : Qc_of_Z 12 ≠ 0.
Proof. by apply Qc_of_Z_nonzero. Qed.

(** *** The required monthly investment *)

Lemma monthly_rate_zero (annual_rate : Qc) :
  annual_rate / Qc_of_Z 12 = 0 ↔ annual_rate = 0.
Proof.
  pose proof Qc_twelve_nonzero as H12. split.
  - intros Hz. rewrite <- (Qcmult_div_r annual_rate (Qc_of_Z 12)), Hz by done. ring.
  - intros ->. field. done.
Qed.

Lemma monthly_base_minus_one (annual_rate : Qc) :
  1 + annual_rate / Qc_of_Z 12 = - 1 ↔ annual_rate = Qc_of_Z (-24).
Proof.
  pose proof Qc_twelve_nonzero as H12. split.
  - intros Hz. rewrite <- (Qcmult_div_r annual_rate (Qc_of_Z 12)) by done.
    replace (annual_rate / Qc_of_Z 12) with (- 1 - 1) by (rewrite <- Hz; ring).
    by_evaluation.
  - intros ->. by_evaluation.
Qed.

(** The zero-rate branch: a plain division by the number of months. *)
Lemma required_investment_zero_rate (target_amount : Qc) (years : Z) :
  calculate_required_monthly_investment target_amount years 0 =
  py_div target_amount (Qc_of_Z (years * 12)).
Proof.
  unfold calculate_required_monthly_investment. cbv zeta.
  rewrite decide_True; [done|]. by apply monthly_rate_zero.
Qed.

(** The annuity branch, when the periods are not negative. *)
Lemma required_investment_annuity (target_amount : Qc) (years : Z) (annual_rate : Qc) :
  (0 ≤ years)%Z → annual_rate ≠ 0 →
  let r := annual_rate / Qc_of_Z 12 in
  calculate_required_monthly_investment target_amount years annual_rate =
  py_div target_amount (((1 + r) ^ Z.to_nat (years * 12) - 1) / r).
Proof.
  intros Hy Hr. cbv zeta. unfold calculate_required_monthly_investment. cbv zeta.
  assert (annual_rate / Qc_of_Z 12 ≠ 0) as Hm by (by rewrite monthly_rate_zero).
  rewrite decide_False by done. unfold py_pow.
  rewrite (proj2 (Z.leb_le 0 (years * 12))) by lia. cbn [mbind option_bind].
  by rewrite (py_div_Some _ (annual_rate / Qc_of_Z 12)) by done.
Qed.

(** The annuity factor vanishes only at a monthly rate of -2. *)
Lemma annuity_factor_nonzero (annual_rate : Qc) (n : nat) :
  annual_rate ≠ 0 → annual_rate ≠ Qc_of_Z (-24) →
  let r := annual_rate / Qc_of_Z 12 in
  ((1 + r) ^ S n - 1) / r ≠ 0.
Proof.
  intros Hr H24. cbv zeta. intros Hf.
  assert (annual_rate / Qc_of_Z 12 ≠ 0) as Hm by (by rewrite monthly_rate_zero).
  assert ((1 + annual_rate / Qc_of_Z 12) ^ S n = 1) as Hp.
  { transitivity
      (((1 + annual_rate / Qc_of_Z 12) ^ S n - 1) / (annual_rate / Qc_of_Z 12) *
       (annual_rate / Qc_of_Z 12) + 1); [|rewrite Hf; ring].
    generalize ((1 + annual_rate / Qc_of_Z 12) ^ S n). intros g. field. done. }
  apply Qcpower_eq_1 in Hp as [H1|H1].
  - apply Hm. transitivity (1 + annual_rate / Qc_of_Z 12 - 1); [ring|].
    rewrite H1. ring.
  - by apply H24, monthly_base_minus_one.
Qed.

Lemma periods_succ (years : Z) :
  (1 ≤ years)%Z → ∃ n, Z.to_nat (years * 12) = S n.
Proof. intros Hy. exists (Nat.pred (Z.to_nat (years * 12))). lia. Qed.

(** For a horizon of at least one year and a rate other than -24 the payment
    is returned, and it is the target over the annuity factor. *)
Lemma required_investment_returns (target_amount : Qc) (years : Z) (annual_rate : Qc) :
  (1 ≤ years)%Z → annual_rate ≠ Qc_of_Z (-24) →
  no_division_by_zero target_amount years annual_rate ∧
  round_trip target_amount years annual_rate.
Proof.
  intros Hy H24. unfold no_division_by_zero, round_trip.
  destruct (decide (annual_rate = 0)) as [->|Hr].
  - rewrite required_investment_zero_rate. unfold py_div.
    assert (Qc_of_Z (years * 12) ≠ 0) as Hn by (apply Qc_of_Z_nonzero; lia).
    rewrite decide_False by done. split; [done|]. eexists. split; [done|].
    unfold annuity_future_value. rewrite decide_True by (by apply monthly_rate_zero).
    rewrite Z2Nat.id by lia. field. done.
  - rewrite required_investment_annuity by (done || lia). cbv zeta.
    destruct (periods_succ years Hy) as [n Hn]. rewrite Hn.
    pose proof (annuity_factor_nonzero annual_rate n Hr H24) as Hf. cbv zeta in Hf.
    assert (annual_rate / Qc_of_Z 12 ≠ 0) as Hm by (by rewrite monthly_rate_zero).
    unfold py_div. rewrite decide_False by done. split; [done|].
    eexists. split; [done|].
    unfold annuity_future_value. rewrite decide_False by done.
    rewrite Qcmult_comm. by apply Qcmult_div_r.
Qed.

(** At an annual rate of -24 the monthly base is -1, its even power is 1 and
    the factor is 0: the division raises for every horizon. *)
Lemma required_investment_minus_24 (target_amount : Qc) (years : Z) :
  (1 ≤ years)%Z →
  calculate_required_monthly_investment target_amount years (Qc_of_Z (-24)) = None.
Proof.
  intros Hy. rewrite required_investment_annuity by (done || lia). cbv zeta.
  rewrite (proj2 (monthly_base_minus_one (Qc_of_Z (-24)))) by done.
  replace (Z.to_nat (years * 12)) with (2 * Z.to_nat (years * 6))%nat by lia.
  rewrite Qcpower_neg1_even. unfold py_div. rewrite decide_True; [done|].
  unfold Qcdiv. replace (1 - 1) with 0 by ring. apply Qcmult_0_l.
Qed.

(** The closed form of the annuity is what the payments add up to. *)
Lemma annuity_balance_closed (pmt r : Qc) (n : nat) :
  annuity_balance pmt r n = annuity_future_value pmt r n.
Proof.
  unfold annuity_future_value. destruct (decide (r = 0)) as [->|Hr].
  - induction n as [|n IH]; cbn [annuity_balance].
    + change (Z.of_nat 0) with 0%Z. rewrite Z2Qc_inj_0. ring.
    + rewrite IH, Nat2Z.inj_succ, <- Z.add_1_r, Z2Qc_inj_add, Z2Qc_inj_1. ring.
  - induction n as [|n IH]; cbn [annuity_balance Qcpower].
    + field. done.
    + rewrite IH. generalize ((1 + r) ^ n). intros g. field. done.
Qed.

(** C5 (amended). For every target, every horizon of at least one year and
    every annual rate other than -24, the payment returned by
    [calculate_required_monthly_investment], projected through the
    future value of an ordinary annuity at [annual_rate / 12] over
    [years * 12] periods (a linear sum at rate 0), gives back the target; so do
    the payments accumulated period by period. *)
Theorem required_investment_round_trip (target_amount : Qc) (years : Z) (annual_rate : Qc) :
  (1 ≤ years)%Z → annual_rate ≠ Qc_of_Z (-24) →
  round_trip target_amount years annual_rate ∧
  ∀ pmt,
    calculate_required_monthly_investment target_amount years annual_rate = Some pmt →
    annuity_balance pmt (annual_rate / Qc_of_Z 12) (Z.to_nat (years * 12)) = target_amount.
Proof.
  intros Hy H24.
  destruct (required_investment_returns target_amount years annual_rate Hy H24)
    as [_ Hrt].
  split; [done|]. intros pmt Hpmt. destruct Hrt as (pmt' & Hpmt' & Hfv).
  rewrite annuity_balance_closed. congruence.
Qed.

Lemma six_percent_not_minus_24 : Q2Qc (6 # 100) ≠ Qc_of_Z (-24).
Proof. by_evaluation. Qed.

Lemma required_investment_round_trip_witness :
  (1 ≤ 5)%Z ∧ Q2Qc (6 # 100) ≠ Qc_of_Z (-24) ∧
  round_trip (Qc_of_Z 10000) 5 (Q2Qc (6 # 100)).
Proof.
  assert (1 ≤ 5)%Z as Hy by lia.
  split_and!; [exact Hy|exact six_percent_not_minus_24|].
  exact (proj1 (required_investment_round_trip (Qc_of_Z 10000) 5 (Q2Qc (6 # 100))
                  Hy six_percent_not_minus_24)).
Defined.

(** The scenario of the specification: 10000 in 5 years at 6% needs about
    143.33 a month. *)
Example contribution_scenario :
  ∃ pmt,
    calculate_required_monthly_investment (Qc_of_Z 10000) 5 (Q2Qc (6 # 100)) = Some pmt ∧
    Q2Qc (14332 # 100) ≤ pmt < Q2Qc (14333 # 100).
Proof.
  rewrite required_investment_annuity by (lia || by_evaluation). cbv zeta.
  rewrite py_div_Some by by_evaluation.
  eexists. split; [done|]. split; by_evaluation.
Qed.

(** C5, as stated, fails at an annual rate of -24: the monthly base is -1,
    the annuity factor is 0, and no payment is returned. *)
Lemma round_trip_fails_at_minus_24 :
  (1 ≤ 1)%Z ∧
  calculate_required_monthly_investment (Qc_of_Z 10000) 1 (Qc_of_Z (-24)) = None ∧
  ¬ round_trip (Qc_of_Z 10000) 1 (Qc_of_Z (-24)).
Proof.
  assert (calculate_required_monthly_investment (Qc_of_Z 10000) 1 (Qc_of_Z (-24)) = None)
    as Hnone by (by apply required_investment_minus_24).
  split_and!; [lia|done|]. intros (pmt & Hpmt & _). congruence.
Qed.

End BudgetPlanner.

(** ** [script2.py]: the projection functions of class [BudgetPlanner], in
    binary64 *)

Module BudgetPlanner64.
Import PyFloat.
Import PrimFloat.

#[local] Set Warnings "-inexact-float".

Section Libm.
Variable libm_pow : float → float → float.

(** [principal * ((1 + annual_rate) ** years)]. *)
Definition calculate_investment_growth (principal annual_rate : float) (years : Z)
    : outcome float :=
  growth ← pow_int libm_pow (1 + annual_rate) years;
  let future_value := (principal * growth)%float in
  Returned future_value.

Definition calculate_required_monthly_investment
    (target_amount : float) (years : Z) (annual_rate : float) : outcome float :=
  let n := 12 in
  (* the divisor is the literal 12: this division cannot fail *)
  let monthly_rate := (annual_rate / 12)%float in
  let total_periods := years * n in
  if (monthly_rate =? 0)%float then
    truediv_int target_amount (years * 12)
  else
    growth ← pow_int libm_pow (1 + monthly_rate) total_periods;
    factor ← truediv (growth - 1) monthly_rate;
    truediv target_amount factor.

(** C9 (amended). [calculate_investment_growth] evaluates
    [principal * ((1 + annual_rate) ** years)] in binary64.  At 0 years the
    value is the principal, for every principal and every rate.  At rate 0
    (either zero) the value is the principal for every number of years that
    converts to a float, of either sign, and the call raises [OverflowError]
    for the others.  In general the call returns exactly when the power does,
    the product of the principal and the power, and raises what the power
    raises. *)
Theorem investment_growth_spec (principal annual_rate : float) (years : Z) :
  calculate_investment_growth principal annual_rate 0 = Returned principal ∧
  ((annual_rate =? 0)%float = true →
     calculate_investment_growth principal annual_rate years =
       (_ ← float_of_int years; Returned principal)) ∧
  (∀ v, calculate_investment_growth principal annual_rate years = Returned v ↔
        ∃ growth, pow_int libm_pow (1 + annual_rate) years = Returned growth ∧
                  v = (principal * growth)%float) ∧
  (∀ e, calculate_investment_growth principal annual_rate years = Raised e ↔
        pow_int libm_pow (1 + annual_rate) years = Raised e).
Proof.
  unfold calculate_investment_growth. split_and!.
  - rewrite pow_int_zero. cbn. by rewrite mul_1_r.
  - intros Hr. rewrite (add_1_zero _ Hr), pow_int_one.
    destruct (float_of_int years) as [y|e]; cbn; [|done]. by rewrite mul_1_r.
  - intros v. destruct (pow_int libm_pow (1 + annual_rate) years) as [g|e]; cbn.
    + split; [intros [= <-]; by exists g|intros (g' & [= <-] & ->); done].
    + split; [done|intros (g' & Hg & _); done].
  - intros e. destruct (pow_int libm_pow (1 + annual_rate) years) as [g|e']; cbn; done.
Qed.

(** Where the power is left to [pow]: a base above zero other than 1 and an
    exponent other than zero.  The call raises [OverflowError] exactly when
    [pow] overflows. *)
Lemma investment_growth_by_pow (principal annual_rate y : float) (years : Z) :
  let base := (1 + annual_rate)%float in
  float_of_int years = Returned y →
  (y =? 0)%float = false → is_nan y = false → is_infinity y = false →
  is_nan base = false → is_infinity base = false →
  (base =? 0)%float = false → (base <? 0)%float = false → (base =? 1)%float = false →
  calculate_investment_growth principal annual_rate years =
  if is_infinity (libm_pow base y) then Raised OverflowError
  else Returned (principal * libm_pow base y)%float.
Proof.
  cbv zeta. intros Hy H1 H2 H3 H4 H5 H6 H7 H8.
  unfold calculate_investment_growth, pow_int. rewrite Hy. cbn [mbind outcome_bind].
  unfold float_pow. rewrite H1, H2, H3, H4, H5, H6, H7. cbn [andb]. rewrite H8.
  destruct (is_infinity (libm_pow (1 + annual_rate) y)); reflexivity.
Qed.

End Libm.

(** The call raises [e] whatever the C library's [pow] returns. *)
Definition always_raises (call : (float → float → float) → outcome float)
    (e : exception) : Prop :=
  ∀ libm_pow, call libm_pow = Raised e.

(** C9, as stated, fails: at rate 0 and [2 ** 1024] years, a number of years
    that is not negative, the exponent is out of the range of floats and the
    call raises [OverflowError] instead of returning the principal. *)
Lemma growth_overflow_at_zero_rate :
  0 ≤ 2 ^ 1024 ∧
  always_raises (λ pow, calculate_investment_growth pow 1000 0 (2 ^ 1024)) OverflowError.
Proof. split; [done|]. intros libm_pow. vm_compute. reflexivity. Qed.


(** The same at an annual rate of -24: the monthly base is [-1.0], its 60th
    power is [1.0] and the factor is [-0.0]. *)
Example division_by_zero_at_minus_24 :
  always_raises (λ pow, calculate_required_monthly_investment pow 10000 5 (-24))
    ZeroDivisionError.
Proof. intros libm_pow. vm_compute. reflexivity. Qed.

(** Calls that are settled before [pow] is reached. *)
Example zero_rate_payment (libm_pow : float → float → float) :
  calculate_required_monthly_investment libm_pow 1000 5 0 = Returned 16.666666666666668%float ∧
  calculate_required_monthly_investment libm_pow 1000 0 0 = Raised ZeroDivisionError ∧
  calculate_investment_growth libm_pow 1000 0 30 = Returned 1000%float ∧
  calculate_investment_growth libm_pow 1000 0.05 0 = Returned 1000%float ∧
  calculate_investment_growth libm_pow 1000 (-1) (-1) = Raised ZeroDivisionError ∧
  calculate_investment_growth libm_pow 1000 0 (2 ^ 1024 - 2 ^ 970 - 1) = Returned 1000%float.
Proof. split_and!; vm_compute; reflexivity. Qed.

(** With a [pow] that overflows at [1.05 ** 15000] the call raises. *)
Example growth_overflow (libm_pow : float → float → float) :
  libm_pow (1 + 0.05)%float 15000%float = infinity →
  calculate_investment_growth libm_pow 1000 0.05 15000 = Raised OverflowError.
Proof.
  intros H.
  rewrite (investment_growth_by_pow libm_pow 1000 0.05 15000 15000); try by vm_compute.
  cbv zeta. by rewrite H.
Qed.

(** The scenarios of the specification, with the values [pow] returns for
    [1.05 ** 10] and [1.005 ** 60]: 1000 at 5% for 10 years grows to
    1628.894626777442, and 10000 in 5 years at 6% needs 143.3280152942827 a
    month. *)
Example growth_scenario (libm_pow : float → float → float) :
  libm_pow 1.05%float 10%float = 1.628894626777442%float →
  calculate_investment_growth libm_pow 1000 0.05 10 = Returned 1628.894626777442%float.
Proof.
  intros H.
  rewrite (investment_growth_by_pow libm_pow 1000 0.05 10 10); try by vm_compute.
  cbv zeta. change (1 + 0.05)%float with 1.05%float. rewrite H. by vm_compute.
Qed.

Example contribution_scenario_binary64 (libm_pow : float → float → float) :
  libm_pow 1.005%float 60%float = 1.3488501525493075%float →
  calculate_required_monthly_investment libm_pow 10000 5 0.06 =
    Returned 143.3280152942827%float.
Proof.
  intros H. unfold calculate_required_monthly_investment, pow_int, float_pow.
  vm_compute. rewrite H. by vm_compute.
Qed.

End BudgetPlanner64.
